(** * Route reconciliation core (pkg/node/routing.go) and kvstore client
      bootstrap (pkg/kvstore/client.go): a shallow embedding and its properties.

    Layout:
    - [GoNet]    : the part of Go's [net] package the routing code calls
                   ([IP.Equal], [IP.To4], [IPMask.Size], [CIDRMask], [IPNet.String]);
    - [Netlink]  : the kernel route table as the code sees it through the
                   [netlink] package, as an interface, plus an in-memory table;
    - [Routing]  : routing.go, function by function, in a state monad over the
                   kernel, a call trace and the log;
    - [Kvstore]  : client.go;
    - the properties. *)

From Stdlib Require Import List String Ascii Bool Arith ZArith NArith Lia.
From Stdlib Require Import Strings.Byte DecimalString.
Import ListNotations.

Set Implicit Arguments.

(* ===================================================================== *)
(** ** Go's [net] package *)
(* ===================================================================== *)

Module GoNet.

(** A Go byte slice: [None] is the nil slice, [Some []] an empty non-nil one.
    [net.IP] and [net.IPMask] are both [[]byte]. *)
Definition bytes := list byte.
Definition IP := option bytes.
Definition IPMask := option bytes.

Definition IPv4len : nat := 4.
Definition IPv6len : nat := 16.

Definition len (s : option bytes) : nat :=
  match s with None => 0 | Some l => List.length l end.

Definition data (s : option bytes) : bytes :=
  match s with None => [] | Some l => l end.

Fixpoint bytesEqual (a b : bytes) : bool :=
  match a, b with
  | [], [] => true
  | x :: a', y :: b' => Byte.eqb x y && bytesEqual a' b'
  | _, _ => false
  end.

Definition v4InV6Prefix : bytes :=
  [x00; x00; x00; x00; x00; x00; x00; x00; x00; x00; xff; xff].

(** [func (ip IP) Equal(x IP) bool] *)
Definition IP_Equal (ip x : IP) : bool :=
  if len ip =? len x then bytesEqual (data ip) (data x)
  else if (len ip =? IPv4len) && (len x =? IPv6len) then
    bytesEqual (firstn 12 (data x)) v4InV6Prefix && bytesEqual (data ip) (skipn 12 (data x))
  else if (len ip =? IPv6len) && (len x =? IPv4len) then
    bytesEqual (firstn 12 (data ip)) v4InV6Prefix && bytesEqual (skipn 12 (data ip)) (data x)
  else false.

Definition isZeros (p : bytes) : bool := forallb (Byte.eqb x00) p.

(** [func (ip IP) To4() IP] *)
Definition To4 (ip : IP) : IP :=
  if len ip =? IPv4len then ip
  else if (len ip =? IPv6len) && isZeros (firstn 10 (data ip))
          && Byte.eqb (nth 10 (data ip) x00) xff
          && Byte.eqb (nth 11 (data ip) x00) xff
       then Some (firstn 4 (skipn 12 (data ip)))
       else None.

Definition isNil (s : option bytes) : bool :=
  match s with None => true | Some _ => false end.

(** The inner loop of [simpleMaskLength]:
    [for v&0x80 != 0 { n++; v <<= 1 }] on a [uint8]; at most eight rounds. *)
Fixpoint leadingOnes (fuel : nat) (v : N) : Z * N :=
  match fuel with
  | O => (0%Z, v)
  | S f =>
      if N.testbit v 7 then
        let '(n, v') := leadingOnes f ((v * 2) mod 256)%N in ((n + 1)%Z, v')
      else (0%Z, v)
  end.

(** [func simpleMaskLength(mask IPMask) int]; [-1] when the mask is not a
    run of ones followed by zeros. *)
Fixpoint simpleMaskLength (mask : bytes) : Z :=
  match mask with
  | [] => 0%Z
  | v :: rest =>
      if Byte.eqb v xff then
        let n := simpleMaskLength rest in
        if (n =? -1)%Z then (-1)%Z else (n + 8)%Z
      else
        let '(n, v') := leadingOnes 8 (Byte.to_N v) in
        if negb (v' =? 0)%N then (-1)%Z
        else if isZeros rest then n else (-1)%Z
  end.

(** [func (m IPMask) Size() (ones, bits int)] *)
Definition Mask_Size (m : IPMask) : Z * Z :=
  let ones := simpleMaskLength (data m) in
  if (ones =? -1)%Z then (0%Z, 0%Z) else (ones, (Z.of_nat (len m) * 8)%Z).

Definition byte_of_N (n : N) : byte :=
  match Byte.of_N (n mod 256) with Some b => b | None => x00 end.

Fixpoint cidrBytes (l : nat) (n : N) : bytes :=
  match l with
  | O => []
  | S l' =>
      if (8 <=? n)%N then xff :: cidrBytes l' (n - 8)
      else byte_of_N (N.lxor 255 (N.shiftr 255 n)) :: cidrBytes l' 0
  end.

(** [func CIDRMask(ones, bits int) IPMask] *)
Definition CIDRMask (ones bits : Z) : IPMask :=
  if negb (bits =? 32)%Z && negb (bits =? 128)%Z then None
  else if (ones <? 0)%Z || (bits <? ones)%Z then None
  else Some (cidrBytes (Z.to_nat (bits / 8)) (Z.to_N ones)).

(** [type IPNet struct { IP IP; Mask IPMask }] *)
Record IPNet := mkIPNet { IPNet_IP : IP; IPNet_Mask : IPMask }.

(** [func networkNumberAndMask(n *IPNet) (ip IP, m IPMask)] *)
Definition networkNumberAndMask (n : IPNet) : IP * IPMask :=
  let ip4 := To4 (IPNet_IP n) in
  let ip := if isNil ip4 then IPNet_IP n else ip4 in
  if isNil ip4 && negb (len ip =? IPv6len) then (None, None)
  else
    let m := IPNet_Mask n in
    if len m =? IPv4len then
      if negb (len ip =? IPv4len) then (None, None) else (ip, m)
    else if len m =? IPv6len then
      if len ip =? IPv4len then (ip, Some (skipn 12 (data m))) else (ip, m)
    else (None, None).

Definition hexDigit (n : N) : ascii :=
  nth (N.to_nat n)
      ["0"; "1"; "2"; "3"; "4"; "5"; "6"; "7"; "8"; "9"; "a"; "b"; "c"; "d"; "e"; "f"]%char
      "0"%char.

(** [func hexString(b []byte) string] *)
Fixpoint hexString (b : bytes) : string :=
  match b with
  | [] => EmptyString
  | v :: b' =>
      String (hexDigit (Byte.to_N v / 16)) (String (hexDigit (Byte.to_N v mod 16)) (hexString b'))
  end.

(** [func (m IPMask) String() string] *)
Definition IPMask_String (m : IPMask) : string :=
  if len m =? 0 then "<nil>"%string else hexString (data m).

Definition uitoa (n : N) : string := NilZero.string_of_uint (N.to_uint n).

Section WithIPString.

(** [func (ip IP) String() string] of the Go library: the textual form of an
    address.  Nothing below depends on which text it produces. *)
Variable IP_String : IP -> string.

(** [func (n *IPNet) String() string], on a non-nil receiver. *)
Definition IPNet_String (n : IPNet) : string :=
  let '(nn, m) := networkNumberAndMask n in
  if isNil nn || isNil m then "<nil>"%string
  else
    let l := simpleMaskLength (data m) in
    if (l =? -1)%Z then (IP_String nn ++ "/" ++ IPMask_String m)%string
    else (IP_String nn ++ "/" ++ uitoa (Z.to_N l))%string.

End WithIPString.

(** The 16-byte form an address is compared in: a 4-byte address is the
    IPv4-in-IPv6 address with the same last four bytes. *)
Definition canonical (ip : IP) : bytes :=
  if len ip =? IPv4len then v4InV6Prefix ++ data ip else data ip.

End GoNet.

(* ===================================================================== *)
(** ** The kernel route table behind the [netlink] package *)
(* ===================================================================== *)

Module Netlink.
Import GoNet.

(** [netlink.FAMILY_V4 = unix.AF_INET], [netlink.FAMILY_V6 = unix.AF_INET6]. *)
Definition FAMILY_V4 : Z := 2.
Definition FAMILY_V6 : Z := 10.

(** [type Scope uint8]: [SCOPE_UNIVERSE] is the zero value. *)
Definition SCOPE_UNIVERSE : Z := 0.
Definition SCOPE_LINK : Z := 253.

(** What the code reads of a [netlink.Link]: [link.Attrs().Index]. *)
Record Link := mkLink { Link_Name : string; Link_Index : Z }.

(** The fields of [netlink.Route] that routing.go sets or compares.  [Dst] is
    a [*net.IPNet] that is only ever dereferenced: [None] is the nil pointer. *)
Record Route := mkRoute {
  LinkIndex : Z;
  Scope : Z;
  Dst : option IPNet;
  Src : IP;
  Gw : IP
}.

(** A Go [error] value, by its message. *)
Definition error := string.

(** The five calls routing.go makes into the kernel.  Lookups read the kernel
    state; a replace or a delete may change it and may be refused. *)
Class Kernel (K : Type) := {
  LinkByName : string -> K -> Link + error;
  RouteList : Link -> Z -> K -> list Route + error;
  RouteGet : IP -> K -> list Route + error;
  RouteReplace : Route -> K -> K * option error;
  RouteDel : Route -> K -> K * option error
}.

End Netlink.

(* ===================================================================== *)
(** ** pkg/node/routing.go *)
(* ===================================================================== *)

Module Routing.
Import GoNet Netlink.

(** [*net.IPNet] where the pointer itself is stored and compared: an address
    into a heap of networks, [None] for nil. *)
Definition ptr := option nat.
Definition heap := nat -> IPNet.

Definition ptr_eqb (p q : ptr) : bool :=
  match p, q with
  | None, None => true
  | Some a, Some b => (a =? b)%nat
  | _, _ => false
  end.

Definition ptr_isNil (p : ptr) : bool :=
  match p with None => true | Some _ => false end.

(** [type route struct] *)
Record route := mkroute {
  link : string;
  prefix : ptr;
  via : IP;
  source : IP
}.

(** [Node.Routing], a pointer to the routing configuration: only
    [DirectRouting.InstallRoutes] is read here. *)
Record RoutingConfiguration := { DirectRouting_InstallRoutes : bool }.

(** What routing.go reads of a [*Node] (its declaration is in another file of
    the package): the results of [GetIPv4()], [GetIPv6()], [IsLocalNode()],
    the [Routing] pointer and [cluster.usePerNodeRoutes]. *)
Record Node := mkNode {
  Name : string;
  Node_GetIPv4 : IP;
  Node_GetIPv6 : IP;
  Node_IsLocalNode : bool;
  Routing : option RoutingConfiguration;
  cluster_usePerNodeRoutes : bool
}.

(** The process-wide configuration read through the package's accessors and
    constants, none of which routing.go declares. *)
Record Env := mkEnv {
  HostDevice : string;
  GetLocalNode : Node;
  GetInternalIPv4 : IP;
  GetIPv6Router : IP;
  GetIPv6 : IP;
  GetIPv4AllocRange : option IPNet;
  GetIPv6AllocRange : option IPNet;
  mem : heap;
  IP_String : IP -> string
}.

Inductive Level := Debug | Warning | Error.

(** One line of the log: level, message (format string) and the error attached. *)
Record LogEntry := mkLog { log_level : Level; log_msg : string; log_err : option error }.

Section Model.

(** [nodeState] is the element type of [cc.nodes]. *)
Variable nodeState : Type.

(** [type clusterConfiguation struct]; the mutex is not modelled. *)
Record clusterConfiguation := mkCC {
  nodes : list nodeState;
  auxPrefixes : list (option IPNet);
  usePerNodeRoutes : bool
}.

(** Calls that leave the process, in the order they are made. *)
Inductive Event :=
| EvLinkByName (name : string)
| EvRouteList (idx : Z) (family : Z)
| EvRouteGet (ip : IP)
| EvRouteReplace (r : Route)
| EvRouteDel (r : Route)
| EvNodeSync (ns : nodeState).

Context {K : Type} `{Kernel K}.

Record World := mkWorld {
  kernel : K;
  trace : list Event;
  logs : list LogEntry
}.

(** A call either returns a value in a new world or panics (nil dereference). *)
Inductive Res (A : Type) :=
| Ret (a : A) (w : World)
| Panic (w : World).
Arguments Panic {A} w.

Definition M (A : Type) := World -> Res A.

Definition ret {A} (a : A) : M A := fun w => Ret a w.
Definition bind {A B} (m : M A) (f : A -> M B) : M B :=
  fun w => match m w with Ret a w' => f a w' | Panic w' => Panic w' end.
Definition panic {A} : M A := fun w => Panic w.

Notation "x <- m ;; k" := (bind m (fun x => k))
  (at level 61, m at next level, right associativity).
Notation "m ;;; k" := (bind m (fun _ => k))
  (at level 61, right associativity).

Definition emit (e : Event) : M unit :=
  fun w => Ret tt (mkWorld (kernel w) (trace w ++ [e]) (logs w)).

Definition log (l : Level) (msg : string) (e : option error) : M unit :=
  fun w => Ret tt (mkWorld (kernel w) (trace w) (logs w ++ [mkLog l msg e])).

Definition netlink_LinkByName (name : string) : M (Link + error) :=
  emit (EvLinkByName name) ;;;
  fun w => Ret (LinkByName name (kernel w)) w.

Definition netlink_RouteList (l : Link) (family : Z) : M (list Route + error) :=
  emit (EvRouteList (Link_Index l) family) ;;;
  fun w => Ret (RouteList l family (kernel w)) w.

Definition netlink_RouteGet (ip : IP) : M (list Route + error) :=
  emit (EvRouteGet ip) ;;;
  fun w => Ret (RouteGet ip (kernel w)) w.

Definition netlink_RouteReplace (r : Route) : M (option error) :=
  emit (EvRouteReplace r) ;;;
  fun w => let '(k', e) := RouteReplace r (kernel w) in
           Ret e (mkWorld k' (trace w) (logs w)).

Definition netlink_RouteDel (r : Route) : M (option error) :=
  emit (EvRouteDel r) ;;;
  fun w => let '(k', e) := RouteDel r (kernel w) in
           Ret e (mkWorld k' (trace w) (logs w)).

Variable env : Env.

Definition deref (p : nat) : IPNet := mem env p.

(** [prefix.String()] on a possibly nil [*net.IPNet]. *)
Definition ptr_String (p : ptr) : string :=
  match p with
  | None => "<nil>"%string
  | Some a => IPNet_String (IP_String env) (deref a)
  end.

(** [func (r route) Equal(o route) bool] *)
Definition route_Equal (r o : route) : bool :=
  String.eqb (link r) (link o) &&
  IP_Equal (via r) (via o) &&
  IP_Equal (source r) (source o) &&
  (ptr_eqb (prefix r) (prefix o) ||
   (negb (ptr_isNil (prefix r)) && negb (ptr_isNil (prefix o)) &&
    String.eqb (ptr_String (prefix r)) (ptr_String (prefix o)))).

(** [func (r route) getNetlinkRoute() (netlink.Route, error)] *)
Definition getNetlinkRoute (r : route) : M (Route + error) :=
  let route := mkRoute 0 SCOPE_UNIVERSE (option_map deref (prefix r)) None (via r) in
  let route := if negb (isNil (source r))
               then mkRoute (LinkIndex route) (Scope route) (Dst route) (source r) (Gw route)
               else route in
  if negb (String.eqb (link r) "") then
    l <- netlink_LinkByName (HostDevice env) ;;
    match l with
    | inr err => ret (inr err)
    | inl lk => ret (inl (mkRoute (Link_Index lk) (Scope route) (Dst route) (Src route) (Gw route)))
    end
  else ret (inl route).

(** [func (r route) add() error] *)
Definition route_add (r : route) : M (option error) :=
  rt <- getNetlinkRoute r ;;
  match rt with
  | inr err => ret (Some err)
  | inl route =>
      e <- netlink_RouteReplace route ;;
      match e with
      | Some err => ret (Some err)
      | None => log Debug "Installed route" None ;;; ret None
      end
  end.

(** [func (r route) delete() error] *)
Definition route_delete (r : route) : M (option error) :=
  rt <- getNetlinkRoute r ;;
  match rt with
  | inr err => ret (Some err)
  | inl route =>
      e <- netlink_RouteDel route ;;
      match e with
      | Some err => ret (Some err)
      | None => log Debug "Deleted route" None ;;; ret None
      end
  end.

(** [func ipFamily(ip net.IP) int] *)
Definition ipFamily (ip : IP) : Z :=
  if isNil (To4 ip) then FAMILY_V6 else FAMILY_V4.

(** The world after [netlink.RouteList] was called for the family of the
    destination [fd] on device [l]. *)
Definition listed (l : Link) (fd : IPNet) (w : World) : World :=
  mkWorld (kernel w)
          (trace w ++ [EvRouteList (Link_Index l) (ipFamily (IPNet_IP fd))])
          (logs w).

(** Whether a listed route [r] is the one the filter [route] asks for: the
    condition of the [if] at the end of the loop body of [findRoute], both
    destinations being non-nil. *)
Definition routeMatches (r route : Route) (rd fd : IPNet) : bool :=
  let '(aMaskLen, aMaskBits) := Mask_Size (IPNet_Mask rd) in
  let '(bMaskLen, bMaskBits) := Mask_Size (IPNet_Mask fd) in
  (LinkIndex r =? LinkIndex route)%Z && (Scope r =? Scope route)%Z &&
  (aMaskLen =? bMaskLen)%Z && (aMaskBits =? bMaskBits)%Z &&
  IP_Equal (IPNet_IP rd) (IPNet_IP fd) && IP_Equal (Gw r) (Gw route).

(** The [for _, r := range routes] loop of [findRoute].  The outer [None] is
    the nil dereference of [r.Dst.Mask] when both destinations are nil. *)
Fixpoint findRoute_loop (routes : list Route) (route : Route) : option (option Route) :=
  match routes with
  | [] => Some None
  | r :: rest =>
      match Dst r, Dst route with
      | Some _, None => findRoute_loop rest route
      | None, Some _ => findRoute_loop rest route
      | None, None => None
      | Some rd, Some fd =>
          if routeMatches r route rd fd then Some (Some r)
          else findRoute_loop rest route
      end
  end.

(** [func findRoute(link netlink.Link, route *netlink.Route) *netlink.Route] *)
Definition findRoute (l : Link) (route : Route) : M (option Route) :=
  match Dst route with
  | None => panic
  | Some fd =>
      res <- netlink_RouteList l (ipFamily (IPNet_IP fd)) ;;
      match res with
      | inr _ => ret None
      | inl routes =>
          match findRoute_loop routes route with
          | None => panic
          | Some found => ret found
          end
      end
  end.

(** [func replaceNexthopRoute(link netlink.Link, routerNet *net.IPNet) error] *)
Definition replaceNexthopRoute (l : Link) (routerNet : option IPNet) : M (option error) :=
  let route := mkRoute (Link_Index l) SCOPE_LINK routerNet None None in
  found <- findRoute l route ;;
  match found with
  | None =>
      e <- netlink_RouteReplace route ;;
      match e with
      | Some err =>
          log Error "Unable to add L2 nexthop route" (Some err) ;;;
          ret (Some "unable to add L2 nexthop route"%string)
      | None => log Debug "Added L2 nexthop route" None ;;; ret None
      end
  | Some _ => ret None
  end.

(** [func replaceNodeRoute(ip *net.IPNet)] *)
Definition replaceNodeRoute (ip : option IPNet) : M unit :=
  match ip with
  | None => ret tt
  | Some n =>
      lk <- netlink_LinkByName (HostDevice env) ;;
      match lk with
      | inr err => log Error "Unable to lookup interface" (Some err)
      | inl l =>
          let '(routerNet, via, local) :=
            if negb (isNil (To4 (IPNet_IP n))) then
              (mkIPNet (GetInternalIPv4 env) (CIDRMask 32 32),
               GetInternalIPv4 env, GetInternalIPv4 env)
            else
              (mkIPNet (GetIPv6Router env) (CIDRMask 128 128),
               GetIPv6Router env, GetIPv6 env) in
          e <- replaceNexthopRoute l (Some routerNet) ;;
          match e with
          | Some err => log Error "Unable to add nexthop route" (Some err)
          | None => ret tt
          end ;;;
          let route := mkRoute (Link_Index l) SCOPE_UNIVERSE ip local via in
          e <- netlink_RouteReplace route ;;
          match e with
          | Some err => log Error "Unable to add node route" (Some err)
          | None => log Debug "Replaced node route" None
          end
      end
  end.

(** [func validateDirectL2Route(nodeIP net.IP) error] *)
Definition validateDirectL2Route (nodeIP : IP) : M (option error) :=
  if isNil nodeIP then ret (Some "node IP of address family is not known"%string)
  else
    res <- netlink_RouteGet nodeIP ;;
    match res with
    | inr err =>
        ret (Some ("unable to determine route for node IP " ++ IP_String env nodeIP
                   ++ ": " ++ err)%string)
    | inl viaRoutes =>
        match viaRoutes with
        | [] => ret (Some ("no route exists to node IP " ++ IP_String env nodeIP)%string)
        | r0 :: _ =>
            if negb (isNil (Gw r0)) then
              ret (Some ("node IP " ++ IP_String env nodeIP
                         ++ " is routed via another gateway " ++ IP_String env (Gw r0))%string)
            else ret None
        end
    end.

(** [func (n *Node) generateRouteForIP(route *route, nodeIP, routerIP, sourceIP net.IP)];
    the route written through the pointer is returned. *)
Definition generateRouteForIP (n : Node) (r : route) (nodeIP routerIP sourceIP : IP)
  : M route :=
  let localNode := GetLocalNode env in
  let direct :=
    match Routing localNode with
    | Some rc => DirectRouting_InstallRoutes rc && negb (Node_IsLocalNode n)
    | None => false
    end in
  let rest : M route :=
    if cluster_usePerNodeRoutes localNode || Node_IsLocalNode n then
      ret (mkroute (HostDevice env) (prefix r) routerIP sourceIP)
    else ret r in
  if direct then
    e <- validateDirectL2Route nodeIP ;;
    match e with
    | None => ret (mkroute (link r) (prefix r) nodeIP (source r))
    | Some err =>
        log Warning "Unable to use direct route to CIDR %s: %s" (Some err) ;;;
        rest
    end
  else rest.

(** [func (n *Node) generateRoute(prefix *net.IPNet) route] *)
Definition generateRoute (n : Node) (p : ptr) : M route :=
  let r := mkroute "" p None None in
  match p with
  | None => panic
  | Some a =>
      r' <- (if negb (isNil (To4 (IPNet_IP (deref a)))) then
               generateRouteForIP n r (Node_GetIPv4 n) (GetInternalIPv4 env) (GetInternalIPv4 env)
             else
               generateRouteForIP n r (Node_GetIPv6 n) (GetIPv6Router env) (GetIPv6 env)) ;;
      log Debug "Generated route for node %s and prefix %+v: %+v" None ;;;
      ret r'
  end.

(** [ns.synchronizeToDatapath()], declared in another file of the package:
    any action on the world. *)
Variable synchronizeToDatapath : nodeState -> M unit.

Fixpoint forEach {A} (f : A -> M unit) (l : list A) : M unit :=
  match l with
  | [] => ret tt
  | x :: l' => f x ;;; forEach f l'
  end.

(** [func (cc *clusterConfiguation) syncClusterRouting() error] *)
Definition syncClusterRouting (cc : clusterConfiguation) : M (option error) :=
  lk <- netlink_LinkByName (HostDevice env) ;;
  match lk with
  | inr err => ret (Some err)
  | inl l =>
      let routerNet4 := mkIPNet (GetInternalIPv4 env) (CIDRMask 32 32) in
      e4 <- replaceNexthopRoute l (Some routerNet4) ;;
      match e4 with
      | Some err => ret (Some err)
      | None =>
          let routerNet6 := mkIPNet (GetIPv6Router env) (CIDRMask 128 128) in
          e6 <- replaceNexthopRoute l (Some routerNet6) ;;
          match e6 with
          | Some err => ret (Some err)
          | None =>
              forEach (fun ns => emit (EvNodeSync ns) ;;; synchronizeToDatapath ns)
                      (nodes cc) ;;;
              (if negb (usePerNodeRoutes cc) then
                 replaceNodeRoute (GetIPv4AllocRange env) ;;;
                 replaceNodeRoute (GetIPv6AllocRange env)
               else ret tt) ;;;
              forEach replaceNodeRoute (auxPrefixes cc) ;;;
              ret None
          end
      end
  end.

End Model.

Arguments Panic {nodeState K A} w.
Arguments Ret {nodeState K A} a w.

(** *** The test of [findRoute] on one listed route *)

(** Whether [findRoute] stops at the listed route [r], for a filter [route]
    whose destination is [fd]: the two [continue]s and the final [if] of the
    loop body. *)
Definition matchesFilter (route : Route) (fd : IPNet) (r : Route) : bool :=
  match Dst r with
  | Some rd => routeMatches r route rd fd
  | None => false
  end.

(** The match as the specification words it, "an existing route matching
    device index, scope, and destination": the gateway is not looked at. *)
Definition matchesIndexScopeDst (route : Route) (fd : IPNet) (r : Route) : bool :=
  match Dst r with
  | Some rd =>
      (LinkIndex r =? LinkIndex route)%Z && (Scope r =? Scope route)%Z &&
      IP_Equal (IPNet_IP rd) (IPNet_IP fd) &&
      (fst (Mask_Size (IPNet_Mask rd)) =? fst (Mask_Size (IPNet_Mask fd)))%Z &&
      (snd (Mask_Size (IPNet_Mask rd)) =? snd (Mask_Size (IPNet_Mask fd)))%Z
  | None => false
  end.

(** The filter [replaceNexthopRoute] builds. *)
Definition nexthopFilter (l : Link) (routerNet : IPNet) : Route :=
  mkRoute (Link_Index l) SCOPE_LINK (Some routerNet) None None.

(** *** The three outcomes of [generateRoute], as the code builds them *)

(** The two log lines of [generateRoute] and [generateRouteForIP]. *)
Definition generated : LogEntry :=
  mkLog Debug "Generated route for node %s and prefix %+v: %+v" None.

Definition warned (err : error) : LogEntry :=
  mkLog Warning "Unable to use direct route to CIDR %s: %s" (Some err).

Section Outcomes.

Variable env : Env.

(** The test of [generateRoute] on [prefix.IP.To4()]. *)
Definition prefixIsV4 (a : nat) : bool := negb (isNil (To4 (IPNet_IP (mem env a)))).

(** The arguments [generateRoute] passes to [generateRouteForIP] for the
    family of the prefix at address [a]. *)
Definition nodeAddr (n : Node) (a : nat) : IP :=
  if prefixIsV4 a then Node_GetIPv4 n else Node_GetIPv6 n.
Definition routerAddr (a : nat) : IP :=
  if prefixIsV4 a then GetInternalIPv4 env else GetIPv6Router env.
Definition sourceAddr (a : nat) : IP :=
  if prefixIsV4 a then GetInternalIPv4 env else GetIPv6 env.

(** The condition of the first [if] of [generateRouteForIP]. *)
Definition directEnabled (n : Node) : bool :=
  match Routing (GetLocalNode env) with
  | Some rc => DirectRouting_InstallRoutes rc && negb (Node_IsLocalNode n)
  | None => false
  end.

(** [route.via = nodeIP] on the fresh route. *)
Definition directRoute (n : Node) (a : nat) : route :=
  mkroute "" (Some a) (nodeAddr n a) None.

(** [route.link = HostDevice; route.via = routerIP; route.source = sourceIP]. *)
Definition perNodeRoute (a : nat) : route :=
  mkroute (HostDevice env) (Some a) (routerAddr a) (sourceAddr a).

(** The fresh route left as it is: only the prefix is set. *)
Definition placeholder (a : nat) : route := mkroute "" (Some a) None None.

(** The second [if] of [generateRouteForIP]. *)
Definition fallThrough (n : Node) (a : nat) : route :=
  if cluster_usePerNodeRoutes (GetLocalNode env) || Node_IsLocalNode n
  then perNodeRoute a else placeholder a.

End Outcomes.

End Routing.

(* ===================================================================== *)
(** ** An in-memory kernel route table *)
(* ===================================================================== *)

Module MemKernel.
Import GoNet Netlink.

(** The table holds the installed routes in order, the devices, the routes
    the kernel refuses to install and whether listing the table fails. *)
Record Table := mkTable {
  tb_links : list Link;
  tb_routes : list Route;
  tb_refuse : Route -> bool;
  tb_list_fails : bool
}.

(** Two routes have the same destination: both have none, or the addresses
    are [Equal] and the masks have the same size. *)
Definition same_dst (a b : Route) : bool :=
  match Dst a, Dst b with
  | None, None => true
  | Some x, Some y =>
      IP_Equal (IPNet_IP x) (IPNet_IP y) &&
      (fst (Mask_Size (IPNet_Mask x)) =? fst (Mask_Size (IPNet_Mask y)))%Z &&
      (snd (Mask_Size (IPNet_Mask x)) =? snd (Mask_Size (IPNet_Mask y)))%Z
  | _, _ => false
  end.

(** Replace semantics: the first route to the same destination is
    overwritten where it stands; without one the route is appended. *)
Fixpoint upsert (r : Route) (l : list Route) : list Route :=
  match l with
  | [] => [r]
  | e :: l' => if same_dst e r then r :: l' else e :: upsert r l'
  end.

Fixpoint remove_dst (r : Route) (l : list Route) : option (list Route) :=
  match l with
  | [] => None
  | e :: l' =>
      if same_dst e r then Some l'
      else option_map (cons e) (remove_dst r l')
  end.

Definition route_family (r : Route) : Z :=
  match Dst r with
  | Some n => if isNil (To4 (IPNet_IP n)) then FAMILY_V6 else FAMILY_V4
  | None => if isNil (To4 (Gw r)) then FAMILY_V6 else FAMILY_V4
  end.

(** [func (n *IPNet) Contains(ip IP) bool] *)
Definition Contains (n : IPNet) (ip : IP) : bool :=
  let '(nn, m) := networkNumberAndMask n in
  let ip := if isNil (To4 ip) then ip else To4 ip in
  if negb (len ip =? len nn) then false
  else
    forallb (fun t : (byte * byte) * byte =>
               let '((a, b), c) := t in
               (N.land (Byte.to_N a) (Byte.to_N c) =? N.land (Byte.to_N b) (Byte.to_N c))%N)
            (combine (combine (data nn) (data ip)) (data m)).

Definition covers (ip : IP) (r : Route) : bool :=
  match Dst r with
  | None => true
  | Some n => Contains n ip
  end.

Definition ones (r : Route) : Z :=
  match Dst r with
  | None => (-1)%Z
  | Some n => fst (Mask_Size (IPNet_Mask n))
  end.

(** Longest-prefix match; the earlier route wins a tie. *)
Fixpoint best (ip : IP) (l : list Route) : option Route :=
  match l with
  | [] => None
  | r :: l' =>
      match best ip l' with
      | None => if covers ip r then Some r else None
      | Some b => if covers ip r && (ones b <=? ones r)%Z then Some r else Some b
      end
  end.

#[export] Instance Table_Kernel : Kernel Table := {
  LinkByName name t :=
    match find (fun l => String.eqb (Link_Name l) name) (tb_links t) with
    | Some l => inl l
    | None => inr "Link not found"%string
    end;
  RouteList l family t :=
    if tb_list_fails t then inr "operation not permitted"%string
    else inl (filter (fun r => (LinkIndex r =? Link_Index l)%Z && (route_family r =? family)%Z)
                     (tb_routes t));
  RouteGet ip t :=
    match best ip (tb_routes t) with
    | Some r => inl [r]
    | None => inr "network is unreachable"%string
    end;
  RouteReplace r t :=
    if tb_refuse t r then (t, Some "invalid argument"%string)
    else (mkTable (tb_links t) (upsert r (tb_routes t)) (tb_refuse t) (tb_list_fails t), None);
  RouteDel r t :=
    match remove_dst r (tb_routes t) with
    | Some l => (mkTable (tb_links t) l (tb_refuse t) (tb_list_fails t), None)
    | None => (t, Some "no such process"%string)
    end
}.

End MemKernel.

(* ===================================================================== *)
(** ** The kernel writes of one synchronization pass *)
(* ===================================================================== *)

(** What [syncClusterRouting] does to the in-memory table, as a list of
    writes: the conditional write of [replaceNexthopRoute] and the plain
    [netlink.RouteReplace].  A refused write leaves the table as it is. *)
Module Pass.
Import GoNet Netlink Routing MemKernel.

Inductive op :=
| Ensure (n : IPNet)
| Put (r : Route).

(** The destination of a route as the table compares it. *)
Definition dstKey (r : Route) : option (bytes * (Z * Z)) :=
  match Dst r with
  | None => None
  | Some n => Some (canonical (IPNet_IP n), Mask_Size (IPNet_Mask n))
  end.

Section Ops.

Variable refuse : Route -> bool.
Variable list_fails : bool.
Variable l : Link.

(** A route of the table that [findRoute] returns for the router network
    [n]: it is listed for the device and family and passes the test. *)
Definition hit (n : IPNet) (e : Route) : bool :=
  (LinkIndex e =? Link_Index l)%Z && (route_family e =? ipFamily (IPNet_IP n))%Z &&
  matchesFilter (nexthopFilter l n) n e.

Definition found (n : IPNet) (X : list Route) : bool :=
  negb list_fails && existsb (hit n) X.

Definition write (r : Route) (X : list Route) : list Route :=
  if refuse r then X else upsert r X.

Definition ensure (n : IPNet) (X : list Route) : list Route :=
  if found n X then X else write (nexthopFilter l n) X.

(** [replaceNexthopRoute] returns an error: the route is not found and the
    kernel refuses it. *)
Definition ensureFails (n : IPNet) (X : list Route) : bool :=
  negb (found n X) && refuse (nexthopFilter l n).

Definition step (o : op) (X : list Route) : list Route :=
  match o with
  | Ensure n => ensure n X
  | Put r => write r X
  end.

Definition run (ops : list op) (X : list Route) : list Route :=
  fold_left (fun X o => step o X) ops X.

Definition route_of (o : op) : Route :=
  match o with
  | Ensure n => nexthopFilter l n
  | Put r => r
  end.

(** The table has a route to the destination of [r]. *)
Definition present (r : Route) (X : list Route) : bool :=
  existsb (fun e => same_dst e r) X.

(** The writes of a pass never clash with its nexthop routes: a plain write
    is not link-scoped, and two nexthop routes are the same or go to
    different destinations. *)
Definition wellFormed (ops : list op) : Prop :=
  (forall r, In (Put r) ops -> Scope r <> SCOPE_LINK) /\
  (forall n n', In (Ensure n) ops -> In (Ensure n') ops ->
                n = n' \/ dstKey (nexthopFilter l n) <> dstKey (nexthopFilter l n')).

(** An operation that goes with the nexthop route of [n]. *)
Definition compatible (n : IPNet) (o : op) : Prop :=
  match o with
  | Put r => hit n r = false
  | Ensure n' => n' = n \/ dstKey (nexthopFilter l n') <> dstKey (nexthopFilter l n)
  end.

(** The state of the table with respect to the nexthop route of [n] once it
    has been written: its destination is there; overwriting the route to that
    destination with a route [findRoute] does not accept leaves nothing for
    [findRoute] to return; and if [findRoute] returns a route at all, the
    route to that destination is the nexthop route itself. *)
Definition settled (n : IPNet) (X : list Route) : Prop :=
  present (nexthopFilter l n) X = true /\
  (forall r, dstKey r = dstKey (nexthopFilter l n) -> hit n r = false ->
             existsb (hit n) (upsert r X) = false) /\
  (upsert (nexthopFilter l n) X = X \/ existsb (hit n) X = false).

End Ops.

Definition onRoutes (f : list Route -> list Route) (t : Table) : Table :=
  mkTable (tb_links t) (f (tb_routes t)) (tb_refuse t) (tb_list_fails t).

(** A sequence of plain replaces, refused or not. *)
Definition writes (rs : list Route) (t : Table) : Table :=
  fold_left (fun t r => fst (RouteReplace r t)) rs t.

(** The operations on a table, with its own refusals and listing failure. *)
Definition tRun (l : Link) (ops : list op) (t : Table) : Table :=
  onRoutes (run (tb_refuse t) (tb_list_fails t) l ops) t.

Definition tEnsureFails (l : Link) (n : IPNet) (t : Table) : bool :=
  ensureFails (tb_refuse t) (tb_list_fails t) l n (tb_routes t).

Section PassOps.

Variable env : Env.
Variable nodeState : Type.

(** The routes a node's hook replaces. *)
Variable hookRoutes : nodeState -> list Route.

Variable l : Link.

Definition net4 : IPNet := mkIPNet (GetInternalIPv4 env) (CIDRMask 32 32).
Definition net6 : IPNet := mkIPNet (GetIPv6Router env) (CIDRMask 128 128).

(** The two writes of [replaceNodeRoute]. *)
Definition nodeRouteOps (ip : option IPNet) : list op :=
  match ip with
  | None => []
  | Some n =>
      if negb (isNil (To4 (IPNet_IP n))) then
        [Ensure net4;
         Put (mkRoute (Link_Index l) SCOPE_UNIVERSE ip (GetInternalIPv4 env) (GetInternalIPv4 env))]
      else
        [Ensure net6;
         Put (mkRoute (Link_Index l) SCOPE_UNIVERSE ip (GetIPv6 env) (GetIPv6Router env))]
  end.

(** The writes of [syncClusterRouting] after the two nexthop routes. *)
Definition restOps (cc : clusterConfiguation nodeState) : list op :=
  map Put (flat_map hookRoutes (nodes cc)) ++
  (if negb (usePerNodeRoutes cc)
   then nodeRouteOps (GetIPv4AllocRange env) ++ nodeRouteOps (GetIPv6AllocRange env)
   else []) ++
  flat_map nodeRouteOps (auxPrefixes cc).

Definition passOps (cc : clusterConfiguation nodeState) : list op :=
  Ensure net4 :: Ensure net6 :: restOps cc.

End PassOps.

End Pass.

(* ===================================================================== *)
(** ** pkg/kvstore/client.go *)
(* ===================================================================== *)

Module Kvstore.

Section Client.

(** [BackendOperations] and the backend-specific lease object are opaque. *)
Variables BackendOperations Lease backendModule error : Type.

(** The package variables [defaultClient] and [leaseInstance]. *)
Record Globals := mkGlobals {
  defaultClient : option BackendOperations;
  leaseInstance : option Lease
}.

(** Both are nil when the package is loaded. *)
Definition initial : Globals := mkGlobals None None.

(** [module.newClient()], a method of the [backendModule] interface. *)
Variable newClient : backendModule -> BackendOperations + error.

(** [renewDefaultLease()], declared in another file of the package: it creates
    the lease on the current default client and stores it in [leaseInstance]
    (see the comment on that variable); it may fail. *)
Variable renewDefaultLease : option BackendOperations -> option Lease -> option Lease * option error.

(** [func initClient(module backendModule) error].  [deleteLegacyPrefixes()]
    talks to the store through the client and touches no package variable. *)
Definition initClient (module : backendModule) (g : Globals) : Globals * option error :=
  match newClient module with
  | inr err => (g, Some err)
  | inl c =>
      let g1 := mkGlobals (Some c) (leaseInstance g) in
      let '(lease, e) := renewDefaultLease (defaultClient g1) (leaseInstance g1) in
      let g2 := mkGlobals (defaultClient g1) lease in
      match e with
      | Some err => (mkGlobals None (leaseInstance g2), Some err)
      | None => (g2, None)
      end
  end.

(** [func Client() BackendOperations] *)
Definition Client (g : Globals) : option BackendOperations := defaultClient g.

(** A run of [initClient] calls, keeping each call's result. *)
Fixpoint initAll (ms : list backendModule) (g : Globals) : Globals * list (option error) :=
  match ms with
  | [] => (g, [])
  | m :: ms' =>
      let '(g1, e) := initClient m g in
      let '(g2, es) := initAll ms' g1 in
      (g2, e :: es)
  end.

End Client.

End Kvstore.

(* ===================================================================== *)
(** ** Sample data *)
(* ===================================================================== *)

Module Samples.
Import GoNet Netlink Routing MemKernel.

Definition ip4 (a b c d : byte) : IP := Some [a; b; c; d].

(** The same IPv4 address in its 16-byte form. *)
Definition ip4in6 (a b c d : byte) : IP := Some (v4InV6Prefix ++ [a; b; c; d]).

(** A textual form for running the examples: dotted decimal for an IPv4
    address, plain hexadecimal otherwise. *)
Definition showIP (ip : IP) : string :=
  match To4 ip with
  | Some [a; b; c; d] =>
      (uitoa (Byte.to_N a) ++ "." ++ uitoa (Byte.to_N b) ++ "." ++
       uitoa (Byte.to_N c) ++ "." ++ uitoa (Byte.to_N d))%string
  | _ => if len ip =? 0 then "<nil>"%string else ("?" ++ hexString (data ip))%string
  end.

Definition router4 : IP := ip4 x0a x00 x00 x01.
Definition router6 : IP :=
  Some [xf0; x0d; x00; x00; x00; x00; x00; x00; x00; x00; x00; x00; x00; x00; x00; x01].
Definition source6 : IP :=
  Some [xf0; x0d; x00; x00; x00; x00; x00; x00; x00; x00; x00; x00; x00; x00; x00; x02].

(** 10.0.0.0/24 written with 4-byte address and mask, and with 16-byte ones. *)
Definition net24 : IPNet := mkIPNet (ip4 x0a x00 x00 x00) (CIDRMask 24 32).
Definition net24_16 : IPNet := mkIPNet (ip4in6 x0a x00 x00 x00) (CIDRMask 120 128).
Definition net16 : IPNet := mkIPNet (ip4 x0a x00 x00 x00) (CIDRMask 16 32).
Definition pod24 : IPNet := mkIPNet (ip4 x0a x01 x01 x00) (CIDRMask 24 32).

Definition heap0 : heap :=
  fun a => match a with
           | 0 => net24
           | 1 => net24_16
           | 2 => pod24
           | _ => net16
           end.

Definition remoteNode : Node :=
  mkNode "node-r" (ip4 x0a x00 x01 x05) None false
         (Some {| DirectRouting_InstallRoutes := true |}) false.

Definition localNode (direct perNode : bool) : Node :=
  mkNode "node-l" (ip4 x0a x00 x00 x02) None true
         (Some {| DirectRouting_InstallRoutes := direct |}) perNode.

Definition env0 (direct perNode : bool) : Env :=
  mkEnv "cilium_host" (localNode direct perNode) router4 router6 source6
        (Some net16) None heap0 showIP.

Definition host : Link := mkLink "cilium_host" 7.

Definition routerNet4 : IPNet := mkIPNet router4 (CIDRMask 32 32).
Definition routerNet6 : IPNet := mkIPNet router6 (CIDRMask 128 128).

(** The link-scoped routes to the router addresses. *)
Definition nexthop4 : Route := mkRoute 7 SCOPE_LINK (Some routerNet4) None None.

(** A route to the router address on the same device and scope, through a
    gateway. *)
Definition nexthop4_gw : Route :=
  mkRoute 7 SCOPE_LINK (Some routerNet4) None (ip4 x0a x00 x00 xfe).

(** The subnet of the nodes, directly connected on another device. *)
Definition connected : Route :=
  mkRoute 2 SCOPE_LINK (Some (mkIPNet (ip4 x0a x00 x01 x00) (CIDRMask 24 32))) None None.

(** The same subnet reached through a gateway. *)
Definition routed : Route :=
  mkRoute 2 SCOPE_UNIVERSE (Some (mkIPNet (ip4 x0a x00 x01 x00) (CIDRMask 24 32)))
          None (ip4 x0a x00 x00 xfe).

Definition table (routes : list Route) (refuse : Route -> bool) : Table :=
  mkTable [host] routes refuse false.

Definition accept_all : Route -> bool := fun _ => false.

Definition world0 (t : Table) : World string :=
  mkWorld t [] [].

(** A kernel that refuses link-scoped IPv4 routes, and one that refuses
    link-scoped IPv6 routes. *)
Definition refuse_link4 : Route -> bool :=
  fun r => (Scope r =? SCOPE_LINK)%Z && (route_family r =? FAMILY_V4)%Z.

(** One remote node, one auxiliary prefix, per-node routes off. *)
Definition cc0 : clusterConfiguation string := mkCC ["node-r"%string] [Some pod24] false.

(** A per-node hook that does nothing. *)
Definition hook0 : string -> M string (K := Table) unit := fun _ => ret tt.



(** A per-node hook that replaces one route, the same at every call. *)
Definition podRoute : Route := mkRoute 7 SCOPE_UNIVERSE (Some net24) router4 router4.
Definition hookRoutes1 : string -> list Route := fun _ => [podRoute].
Definition hook1 : string -> M string (K := Table) unit :=
  fun _ => bind (netlink_RouteReplace podRoute) (fun _ => ret tt).

(** A kvstore with three kinds of backend module: module [0] cannot create a
    client, module [1] creates client [0], whose lease cannot be created, any
    other module [n+1] creates the working client [n]. *)
Definition newClient0 (m : nat) : nat + string :=
  match m with
  | 0 => inr "no endpoints"%string
  | S c => inl c
  end.

Definition renewDefaultLease0 (c : option nat) (l : option nat) : option nat * option string :=
  match c with
  | Some (S _) => (Some 60, None)
  | _ => (l, Some "lease not granted"%string)
  end.

End Samples.

(* ===================================================================== *)
(** ** The text of a route *)
(* ===================================================================== *)

Module RouteText.
Import GoNet Routing.

(** [func (r route) String() string]: the prefix prints as the empty string
    when it is nil, the addresses through [IP.String]. *)
Definition route_String (env : Env) (r : route) : string :=
  let prefix :=
    match prefix r with
    | None => ""%string
    | Some a => IPNet_String (IP_String env) (mem env a)
    end in
  ("prefix=" ++ prefix ++ " link=" ++ link r ++ " via=" ++ IP_String env (via r)
   ++ " source=" ++ IP_String env (source r))%string.

(** The netlink route [getNetlinkRoute] builds for [r] on device index [idx]. *)
Definition netlinkRoute (env : Env) (idx : Z) (r : route) : Netlink.Route :=
  Netlink.mkRoute idx Netlink.SCOPE_UNIVERSE (option_map (mem env) (prefix r))
                  (source r) (via r).

(** An environment whose [IP.String] prints the canonical form in
    hexadecimal. *)
Definition envHex : Env :=
  mkEnv "cilium_host" (Samples.localNode true false) Samples.router4 Samples.router6
        Samples.source6 (Some Samples.net16) None Samples.heap0
        (fun ip => hexString (canonical ip)).

(** A route on the host device and one without device. *)
Definition hostRoute : route := mkroute "cilium_host" (Some 2) Samples.router4 Samples.router4.
Definition plainRoute : route := mkroute "" (Some 2) (Samples.ip4 x0a x00 x01 x05) None.

End RouteText.

(* ===================================================================== *)
(** ** Properties of the address functions *)
(* ===================================================================== *)

Unset Implicit Arguments.

Module GoNetFacts.
Import GoNet.

Lemma bytesEqual_eq (a b : bytes) : bytesEqual a b = true <-> a = b.
Proof.
  revert b; induction a as [|x a IH]; intros [|y b]; simpl; split; try congruence; try easy.
  - rewrite andb_true_iff. intros [Hxy Hab].
    apply Byte.byte_dec_bl in Hxy. apply IH in Hab. congruence.
  - intros E; inversion E; subst. rewrite andb_true_iff. split.
    + now apply Byte.byte_dec_lb.
    + now apply IH.
Qed.

Lemma bytesEqual_refl (a : bytes) : bytesEqual a a = true.
Proof. now apply bytesEqual_eq. Qed.

Lemma bytesEqual_sym (a b : bytes) : bytesEqual a b = bytesEqual b a.
Proof.
  destruct (bytesEqual a b) eqn:E1, (bytesEqual b a) eqn:E2; trivial.
  - apply bytesEqual_eq in E1; subst. now rewrite bytesEqual_refl in E2.
  - apply bytesEqual_eq in E2; subst. now rewrite bytesEqual_refl in E1.
Qed.

Lemma IP_Equal_refl (ip : IP) : IP_Equal ip ip = true.
Proof. unfold IP_Equal. rewrite Nat.eqb_refl. apply bytesEqual_refl. Qed.

Lemma IP_Equal_sym (ip x : IP) : IP_Equal ip x = IP_Equal x ip.
Proof.
  unfold IP_Equal.
  rewrite (Nat.eqb_sym (len x) (len ip)).
  destruct (len ip =? len x) eqn:E.
  - apply bytesEqual_sym.
  - destruct (len ip =? IPv4len) eqn:E4, (len x =? IPv6len) eqn:E6,
             (len ip =? IPv6len) eqn:E6', (len x =? IPv4len) eqn:E4'; simpl; trivial;
      try (apply Nat.eqb_eq in E4; apply Nat.eqb_eq in E6';
           unfold IPv4len, IPv6len in *; lia);
      try (apply Nat.eqb_eq in E6; apply Nat.eqb_eq in E4';
           unfold IPv4len, IPv6len in *; lia);
      f_equal; apply bytesEqual_sym.
Qed.

Lemma firstn_skipn_split (l s p : bytes) :
  List.length p = 12 -> (firstn 12 l = p /\ skipn 12 l = s) <-> l = p ++ s.
Proof.
  intros Hp; split.
  - intros [H1 H2]. rewrite <- (firstn_skipn 12 l). congruence.
  - intros ->. split.
    + rewrite firstn_app, Hp. replace (12 - 12) with 0 by lia.
      rewrite <- Hp. rewrite firstn_all. simpl. now rewrite app_nil_r.
    + rewrite skipn_app, Hp. replace (12 - 12) with 0 by lia.
      rewrite <- Hp. now rewrite skipn_all.
Qed.

(** [IP.Equal] compares addresses in their canonical 16-byte form. *)
Lemma IP_Equal_canonical (ip x : IP) :
  IP_Equal ip x = true <-> canonical ip = canonical x.
Proof.
  assert (Hl : forall s, List.length (data s) = len s) by (intros [s|]; reflexivity).
  assert (Hp : List.length v4InV6Prefix = 12) by reflexivity.
  unfold IP_Equal, canonical, IPv4len, IPv6len.
  destruct (Nat.eqb_spec (len ip) (len x)) as [E|E].
  - rewrite <- E, bytesEqual_eq.
    destruct (len ip =? 4); split; intros H; try congruence.
    now apply app_inv_head in H.
  - destruct (Nat.eqb_spec (len ip) 4) as [E4|E4];
      destruct (Nat.eqb_spec (len x) 16) as [E6|E6];
      destruct (Nat.eqb_spec (len ip) 16) as [E6'|E6'];
      destruct (Nat.eqb_spec (len x) 4) as [E4'|E4']; try lia; cbn [andb];
      try (rewrite andb_true_iff, !bytesEqual_eq);
      try (split; [discriminate|]; intros Hc;
           apply (f_equal (@List.length byte)) in Hc;
           rewrite ?length_app, ?Hl, ?Hp in Hc; lia).
    + pose proof (@firstn_skipn_split (data x) (data ip) _ Hp) as S.
      split; [intros [A B]; symmetry; apply S; split; congruence
             | intros Hc; symmetry in Hc; apply S in Hc; destruct Hc; split; congruence].
    + pose proof (@firstn_skipn_split (data ip) (data x) _ Hp) as S.
      split; [intros [A B]; apply S; split; congruence
             | intros Hc; apply S in Hc; destruct Hc; split; congruence].
Qed.

End GoNetFacts.

(* ===================================================================== *)
(** ** Properties of [route.Equal] *)
(* ===================================================================== *)

Module EqualFacts.
Import GoNet Routing GoNetFacts.

Section WithEnv.

Variable env : Env.

Lemma ptr_eqb_eq (p q : ptr) : ptr_eqb p q = true <-> p = q.
Proof.
  destruct p as [a|], q as [b|]; simpl; split; try congruence; try easy.
  - intros E. apply Nat.eqb_eq in E. congruence.
  - intros E. inversion E. apply Nat.eqb_refl.
Qed.

(** The last conjunct of [Equal]: pointer identity adds nothing to the
    comparison of the texts. *)
Lemma prefix_clause (p q : ptr) :
  ptr_eqb p q || (negb (ptr_isNil p) && negb (ptr_isNil q) &&
                  String.eqb (ptr_String env p) (ptr_String env q)) = true
  <-> (p = None /\ q = None) \/
      (exists x y, p = Some x /\ q = Some y /\
                   IPNet_String (IP_String env) (mem env x) =
                   IPNet_String (IP_String env) (mem env y)).
Proof.
  rewrite orb_true_iff, ptr_eqb_eq. split.
  - intros [E | E].
    + subst q. destruct p as [x|]; [right; now exists x, x | now left].
    + destruct p as [x|], q as [y|]; simpl in E; try discriminate.
      apply String.eqb_eq in E. right. now exists x, y.
  - intros [[-> ->] | (x & y & -> & -> & E)].
    + now left.
    + right. simpl. apply String.eqb_eq. exact E.
Qed.

Lemma IPNet_String_normal (f : IP -> string) (m n : IPNet) :
  networkNumberAndMask m = networkNumberAndMask n -> IPNet_String f m = IPNet_String f n.
Proof. unfold IPNet_String. now intros ->. Qed.

Lemma route_Equal_iff (a b : route) :
  route_Equal env a b = true <->
  link a = link b /\
  canonical (via a) = canonical (via b) /\
  canonical (source a) = canonical (source b) /\
  ((prefix a = None /\ prefix b = None) \/
   (exists x y, prefix a = Some x /\ prefix b = Some y /\
                IPNet_String (IP_String env) (mem env x) =
                IPNet_String (IP_String env) (mem env y))).
Proof.
  unfold route_Equal.
  rewrite !andb_true_iff, String.eqb_eq, !IP_Equal_canonical, prefix_clause.
  tauto.
Qed.

(** C6: [route.Equal] is reflexive and symmetric; two routes are equal exactly
    when the links are the same string, the [via] and the [source] addresses
    have the same canonical form (nil and nil alike), and the prefixes are
    both nil or both non-nil with the same [String()] text; hence two routes
    that differ only in how the same network is written (4-byte or 16-byte
    address and mask, at different pointers) are equal. *)
Theorem route_Equal_spec :
  (forall a, route_Equal env a a = true) /\
  (forall a b, route_Equal env a b = route_Equal env b a) /\
  (forall a b,
      route_Equal env a b = true <->
      link a = link b /\
      canonical (via a) = canonical (via b) /\
      canonical (source a) = canonical (source b) /\
      ((prefix a = None /\ prefix b = None) \/
       (exists x y, prefix a = Some x /\ prefix b = Some y /\
                    IPNet_String (IP_String env) (mem env x) =
                    IPNet_String (IP_String env) (mem env y)))) /\
  (forall l v s x y,
      networkNumberAndMask (mem env x) = networkNumberAndMask (mem env y) ->
      route_Equal env (mkroute l (Some x) v s) (mkroute l (Some y) v s) = true).
Proof.
  assert (R : forall a, route_Equal env a a = true).
  { intros a. apply route_Equal_iff. repeat split; trivial.
    destruct (prefix a) as [x|]; [right; now exists x, x | now left]. }
  split; [exact R|]. split; [|split; [exact route_Equal_iff|]].
  - intros a b.
    destruct (route_Equal env a b) eqn:E1, (route_Equal env b a) eqn:E2; trivial.
    + apply route_Equal_iff in E1. rewrite <- E2. symmetry. apply route_Equal_iff.
      destruct E1 as (L & V & S & [[P Q] | (x & y & P & Q & T)]); repeat split; auto.
      right. now exists y, x.
    + apply route_Equal_iff in E2. rewrite <- E1. apply route_Equal_iff.
      destruct E2 as (L & V & S & [[P Q] | (x & y & P & Q & T)]); repeat split; auto.
      right. now exists y, x.
  - intros l v s x y E. apply route_Equal_iff. simpl. repeat split; trivial.
    right. exists x, y. repeat split. now apply IPNet_String_normal.
Qed.

End WithEnv.

(** 10.0.0.0/24 at address 0 with 4-byte address and mask, at address 1 with
    16-byte ones: the routes are equal, whatever text [IP.String] produces. *)
Lemma route_Equal_spec_witness :
  networkNumberAndMask (mem (Samples.env0 true false) 0) =
  networkNumberAndMask (mem (Samples.env0 true false) 1) /\
  route_Equal (Samples.env0 true false)
              (mkroute "cilium_host" (Some 0) Samples.router4 Samples.router4)
              (mkroute "cilium_host" (Some 1) Samples.router4 Samples.router4) = true.
Proof.
  split; [reflexivity|].
  apply (proj2 (proj2 (proj2 (route_Equal_spec (Samples.env0 true false))))).
  reflexivity.
Defined.

End EqualFacts.

(* ===================================================================== *)
(** ** Properties of routing.go *)
(* ===================================================================== *)

Module RoutingFacts.
Import GoNet Netlink Routing MemKernel GoNetFacts.

Ltac run :=
  unfold netlink_LinkByName, netlink_RouteList, netlink_RouteGet,
         netlink_RouteReplace, netlink_RouteDel, bind, ret, panic, emit, log in *;
  cbn [kernel trace logs] in *.

Ltac triv := first [ easy | congruence | intros; congruence | auto ].

Section WithKernel.

Variable nodeState : Type.
Context {K : Type} `{Kernel K}.
Variable env : Env.

Local Abbreviation World := (World nodeState (K := K)).

(** C3: [validateDirectL2Route] always returns, leaves the kernel as it was,
    and returns an error exactly when the node IP is nil, or the kernel's
    route lookup fails, or it returns no route, or the first route returned
    has a gateway; it succeeds exactly when the node IP is known and the
    lookup returns at least one route, the first of which has no gateway. *)
Theorem validateDirectL2Route_spec (nodeIP : IP) (w : World) :
  exists res w',
    validateDirectL2Route env nodeIP w = Ret res w' /\
    kernel w' = kernel w /\
    (res <> None <->
       nodeIP = None \/
       (exists e, RouteGet nodeIP (kernel w) = inr e) \/
       RouteGet nodeIP (kernel w) = inl [] \/
       (exists r rs, RouteGet nodeIP (kernel w) = inl (r :: rs) /\ Gw r <> None)) /\
    (res = None <->
       nodeIP <> None /\
       exists r rs, RouteGet nodeIP (kernel w) = inl (r :: rs) /\ Gw r = None).
Proof.
  unfold validateDirectL2Route. destruct nodeIP as [ip|]; cbn [isNil].
  2:{ run. eexists _, _. split; [reflexivity|]. split; [reflexivity|]. split; split.
      - triv.
      - triv.
      - triv.
      - intros [E _]. congruence. }
  run. destruct (RouteGet (Some ip) (kernel w)) as [[|r rs]|e] eqn:G.
  - eexists _, _. split; [reflexivity|]. split; [reflexivity|]. split; split.
    + triv.
    + triv.
    + triv.
    + intros (_ & r & rs & E & _). discriminate.
  - destruct (Gw r) as [g|] eqn:Eg; cbn [isNil negb];
      (eexists _, _; split; [reflexivity|]; split; [reflexivity|]; split; split).
    + intros _. right. right. right. exists r, rs. split; congruence.
    + triv.
    + triv.
    + intros (_ & r' & rs' & E & Eg'). congruence.
    + intros C. now elim C.
    + intros [E | [[e E] | [E | (r' & rs' & E & Eg')]]]; congruence.
    + intros _. split; [congruence|]. now exists r, rs.
    + triv.
  - eexists _, _. split; [reflexivity|]. split; [reflexivity|]. split; split.
    + intros _. right. left. now exists e.
    + triv.
    + triv.
    + intros (_ & r & rs & E & _). discriminate.
Qed.

(** *** [generateRoute] *)

Lemma validate_returns (nodeIP : IP) (w : World) :
  exists res w',
    validateDirectL2Route env nodeIP w = Ret res w' /\
    kernel w' = kernel w /\ logs w' = logs w /\
    (nodeIP = None -> trace w' = trace w) /\
    (nodeIP <> None -> trace w' = trace w ++ [EvRouteGet nodeState nodeIP]).
Proof.
  unfold validateDirectL2Route. destruct nodeIP as [ip|]; cbn [isNil]; run.
  - destruct (RouteGet (Some ip) (kernel w)) as [[|r rs]|e];
      [ | destruct (negb (isNil (Gw r))) | ];
      eexists _, _; (split; [reflexivity|]); cbn; repeat split; triv.
  - eexists _, _. split; [reflexivity|]. cbn. repeat split; triv.
Qed.

(** What [generateRouteForIP] returns, by the outcome of the validation. *)
Lemma generateRouteForIP_unfold (n : Node) (r : route) (nodeIP routerIP sourceIP : IP)
      (w : World) (res : option error) (w1 : World) :
  validateDirectL2Route env nodeIP w = Ret res w1 ->
  let rest := if cluster_usePerNodeRoutes (GetLocalNode env) || Node_IsLocalNode n
              then mkroute (HostDevice env) (prefix r) routerIP sourceIP else r in
  generateRouteForIP env n r nodeIP routerIP sourceIP w =
  if directEnabled env n then
    match res with
    | None => Ret (mkroute (link r) (prefix r) nodeIP (source r)) w1
    | Some err =>
        Ret rest (mkWorld (kernel w1) (trace w1)
                          (logs w1 ++ [mkLog Warning "Unable to use direct route to CIDR %s: %s"
                                             (Some err)]))
    end
  else Ret rest w.
Proof.
  intros V rest. unfold generateRouteForIP, directEnabled.
  destruct (Routing (GetLocalNode env)) as [rc|].
  - destruct (DirectRouting_InstallRoutes rc && negb (Node_IsLocalNode n)).
    + unfold bind at 1. rewrite V. destruct res as [err|]; [|reflexivity].
      run. subst rest.
      now destruct (cluster_usePerNodeRoutes (GetLocalNode env) || Node_IsLocalNode n).
    + subst rest. run.
      now destruct (cluster_usePerNodeRoutes (GetLocalNode env) || Node_IsLocalNode n).
  - subst rest. run.
    now destruct (cluster_usePerNodeRoutes (GetLocalNode env) || Node_IsLocalNode n).
Qed.

(** What [generateRoute] returns on a non-nil prefix, by the outcome of the
    validation of the node's address. *)
Lemma generateRoute_unfold (n : Node) (a : nat) (w : World) (res : option error) (w1 : World) :
  validateDirectL2Route env (nodeAddr env n a) w = Ret res w1 ->
  generateRoute env n (Some a) w =
  if directEnabled env n then
    match res with
    | None => Ret (directRoute env n a)
                  (mkWorld (kernel w1) (trace w1) (logs w1 ++ [generated]))
    | Some err => Ret (fallThrough env n a)
                      (mkWorld (kernel w1) (trace w1) (logs w1 ++ [warned err; generated]))
    end
  else Ret (fallThrough env n a) (mkWorld (kernel w) (trace w) (logs w ++ [generated])).
Proof.
  intros V. unfold generateRoute, nodeAddr, fallThrough, perNodeRoute, placeholder,
    directRoute, routerAddr, sourceAddr, nodeAddr, prefixIsV4, deref in *.
  unfold bind at 1.
  destruct (negb (isNil (To4 (IPNet_IP (mem env a))))); cbv beta iota;
    rewrite (generateRouteForIP_unfold n _ _ _ _ _ _ _ V); cbn [prefix link source];
    (destruct (directEnabled env n);
     [ destruct res as [err|] | ];
     run; rewrite <- ?app_assoc; cbn [app];
     now destruct (cluster_usePerNodeRoutes (GetLocalNode env) || Node_IsLocalNode n)).
Qed.

(** C9: on a non-nil prefix [generateRoute] returns a route whose [prefix]
    field is the pointer it was given, in each of the three cases (direct,
    per-node, placeholder); [generateRouteForIP] returns the route it was
    given with the same [prefix], whatever it writes to the other fields. *)
Theorem generateRoute_keeps_prefix (n : Node) (a : nat) (w : World) :
  (exists r w',
      generateRoute env n (Some a) w = Ret r w' /\
      prefix r = Some a /\
      (r = directRoute env n a \/ r = perNodeRoute env a \/ r = placeholder a)) /\
  (forall r nodeIP routerIP sourceIP,
      exists r' w',
        generateRouteForIP env n r nodeIP routerIP sourceIP w = Ret r' w' /\
        prefix r' = prefix r).
Proof.
  split.
  - destruct (validate_returns (nodeAddr env n a) w) as (res & w1 & V & _).
    rewrite (generateRoute_unfold _ _ _ _ _ V). unfold fallThrough.
    destruct (directEnabled env n); [destruct res|];
      try destruct (cluster_usePerNodeRoutes (GetLocalNode env) || Node_IsLocalNode n);
      eexists _, _; (split; [reflexivity|]); split; auto.
  - intros r nodeIP routerIP sourceIP.
    destruct (validate_returns nodeIP w) as (res & w1 & V & _).
    rewrite (generateRouteForIP_unfold n r _ routerIP sourceIP _ _ _ V).
    destruct (directEnabled env n); [destruct res|];
      try destruct (cluster_usePerNodeRoutes (GetLocalNode env) || Node_IsLocalNode n);
      eexists _, _; (split; [reflexivity|]); reflexivity.
Qed.

(** C5: for the local node [generateRoute] returns the per-node route (link
    the host device, via the router address and source the source address of
    the prefix's family), whatever the per-node and direct-routing flags
    are; the validation is not run: no call reaches the kernel. *)
Theorem generateRoute_local (n : Node) (a : nat) (w : World) :
  Node_IsLocalNode n = true ->
  exists w',
    generateRoute env n (Some a) w = Ret (perNodeRoute env a) w' /\
    link (perNodeRoute env a) = HostDevice env /\
    via (perNodeRoute env a) = routerAddr env a /\
    source (perNodeRoute env a) = sourceAddr env a /\
    kernel w' = kernel w /\ trace w' = trace w.
Proof.
  intros L.
  destruct (validate_returns (nodeAddr env n a) w) as (res & w1 & V & _).
  rewrite (generateRoute_unfold _ _ _ _ _ V).
  assert (D : directEnabled env n = false).
  { unfold directEnabled. rewrite L.
    destruct (Routing (GetLocalNode env)); [apply andb_false_r | reflexivity]. }
  rewrite D. unfold fallThrough. rewrite L, orb_true_r.
  eexists. split; [reflexivity|]. repeat split.
Qed.

(** C4: when the validation of the node's address fails, for whatever
    reason, [generateRoute] returns what the second [if] builds, the per-node
    route or the placeholder, and not the direct route; it returns a route
    and no error, the kernel is as before, and the failure only shows as a
    warning in the log when direct routing was tried. *)
Theorem generateRoute_downgrade (n : Node) (a : nat) (w : World) (err : error) (w1 : World) :
  validateDirectL2Route env (nodeAddr env n a) w = Ret (Some err) w1 ->
  exists w',
    generateRoute env n (Some a) w = Ret (fallThrough env n a) w' /\
    (fallThrough env n a = perNodeRoute env a \/ fallThrough env n a = placeholder a) /\
    kernel w' = kernel w /\
    logs w' = logs w ++ (if directEnabled env n then [warned err] else []) ++ [generated].
Proof.
  intros V.
  destruct (validate_returns (nodeAddr env n a) w) as (res & w1' & V' & Kw & Lw & _).
  rewrite V in V'. inversion V'; subst res w1'. clear V'.
  rewrite (generateRoute_unfold _ _ _ _ _ V).
  assert (F : fallThrough env n a = perNodeRoute env a \/
              fallThrough env n a = placeholder a).
  { unfold fallThrough.
    destruct (cluster_usePerNodeRoutes (GetLocalNode env) || Node_IsLocalNode n); auto. }
  destruct (directEnabled env n); eexists; (split; [reflexivity|]);
    cbn [kernel logs]; rewrite ?Lw; auto.
Qed.

(** *** [findRoute] and [replaceNexthopRoute] *)

Lemma findRoute_loop_find (routes : list Route) (route : Route) (fd : IPNet) :
  Dst route = Some fd ->
  findRoute_loop routes route = Some (find (matchesFilter route fd) routes).
Proof.
  intros D. induction routes as [|r rest IH]; simpl; [reflexivity|].
  rewrite D. unfold matchesFilter at 1. destruct (Dst r) as [rd|]; [|exact IH].
  destruct (routeMatches r route rd fd); [reflexivity | exact IH].
Qed.

Lemma findRoute_unfold (l : Link) (route : Route) (fd : IPNet) (w : World) :
  Dst route = Some fd ->
  findRoute l route w =
  Ret (match RouteList l (ipFamily (IPNet_IP fd)) (kernel w) with
       | inl routes => find (matchesFilter route fd) routes
       | inr _ => None
       end)
      (listed l fd w).
Proof.
  intros D. unfold findRoute. rewrite D. run.
  destruct (RouteList l (ipFamily (IPNet_IP fd)) (kernel w)) as [routes|e]; [|reflexivity].
  now rewrite (findRoute_loop_find routes route fd D).
Qed.

Lemma matchesFilter_iff (route : Route) (fd : IPNet) (r : Route) :
  matchesFilter route fd r = true <->
  exists rd,
    Dst r = Some rd /\
    LinkIndex r = LinkIndex route /\ Scope r = Scope route /\
    Mask_Size (IPNet_Mask rd) = Mask_Size (IPNet_Mask fd) /\
    IP_Equal (IPNet_IP rd) (IPNet_IP fd) = true /\
    IP_Equal (Gw r) (Gw route) = true.
Proof.
  unfold matchesFilter, routeMatches. destruct (Dst r) as [rd|].
  - destruct (Mask_Size (IPNet_Mask rd)) as [al ab] eqn:Ma.
    destruct (Mask_Size (IPNet_Mask fd)) as [bl bb] eqn:Mb.
    rewrite !andb_true_iff, !Z.eqb_eq. split.
    + intros [[[[[A B] C] D] E] F]. exists rd. rewrite Ma. repeat split; congruence.
    + intros (rd' & A & B & C & D & E & F). inversion A; subst rd'.
      rewrite Ma in D. inversion D. repeat split; trivial.
  - split; [discriminate|]. intros (rd & A & _). discriminate.
Qed.

(** What [replaceNexthopRoute] does, by what [findRoute] found. *)
Lemma replaceNexthopRoute_unfold (l : Link) (net : IPNet) (w : World) :
  replaceNexthopRoute l (Some net) w =
  match (match RouteList l (ipFamily (IPNet_IP net)) (kernel w) with
         | inl routes => find (matchesFilter (nexthopFilter l net) net) routes
         | inr _ => None
         end) with
  | Some _ => Ret None (listed l net w)
  | None =>
      let route := nexthopFilter l net in
      let tr := trace (listed l net w) ++ [EvRouteReplace nodeState route] in
      match RouteReplace route (kernel w) with
      | (k', Some err) =>
          Ret (Some "unable to add L2 nexthop route"%string)
              (mkWorld k' tr (logs w ++ [mkLog Error "Unable to add L2 nexthop route" (Some err)]))
      | (k', None) =>
          Ret None (mkWorld k' tr (logs w ++ [mkLog Debug "Added L2 nexthop route" None]))
      end
  end.
Proof.
  unfold replaceNexthopRoute. fold (nexthopFilter l net). unfold bind at 1.
  rewrite (findRoute_unfold l (nexthopFilter l net) net w eq_refl).
  destruct (match RouteList l (ipFamily (IPNet_IP net)) (kernel w) with
            | inl routes => find (matchesFilter (nexthopFilter l net) net) routes
            | inr _ => None
            end) as [r|]; [reflexivity|].
  run. unfold listed; cbn [kernel trace logs].
  destruct (RouteReplace (nexthopFilter l net) (kernel w)) as [k' [err|]]; reflexivity.
Qed.

Lemma find_none_all {A} (f : A -> bool) (l : list A) :
  find f l = None <-> forall x, In x l -> f x = false.
Proof.
  induction l as [|a l IH]; simpl.
  - split; [intros _ x [] | reflexivity].
  - destruct (f a) eqn:E.
    + split; [discriminate|]. intros Hf. rewrite (Hf a (or_introl eq_refl)) in E. discriminate.
    + rewrite IH. split.
      * intros Hf x [<- | Hx]; auto.
      * intros Hf x Hx. apply Hf. now right.
Qed.

Lemma matchesFilter_gateway (route : Route) (fd : IPNet) (r : Route) :
  IP_Equal (Gw r) (Gw route) = false -> matchesFilter route fd r = false.
Proof.
  intros G. destruct (matchesFilter route fd r) eqn:M; [|reflexivity].
  apply matchesFilter_iff in M. destruct M as (rd & _ & _ & _ & _ & _ & G'). congruence.
Qed.

(** C7 (as amended): [replaceNexthopRoute] first lists the kernel table for
    the device and the family of the router network.  When the listing
    succeeds and holds a route that agrees with the filter on device index,
    scope, destination address, mask length and bits, and has no gateway, no
    replace is issued, the kernel is unchanged and the call succeeds.  When
    the listing fails or holds no such route, exactly one replace of the
    link-scoped route is issued, and the call succeeds if and only if the
    kernel accepts it. *)
Theorem replaceNexthopRoute_spec (l : Link) (net : IPNet) (w : World) :
  let route := nexthopFilter l net in
  let fam := ipFamily (IPNet_IP net) in
  (forall r,
      matchesFilter route net r = true <->
      exists rd,
        Dst r = Some rd /\
        LinkIndex r = Link_Index l /\ Scope r = SCOPE_LINK /\
        Mask_Size (IPNet_Mask rd) = Mask_Size (IPNet_Mask net) /\
        IP_Equal (IPNet_IP rd) (IPNet_IP net) = true /\
        len (Gw r) = 0) /\
  (forall routes r,
      RouteList l fam (kernel w) = inl routes ->
      In r routes -> matchesFilter route net r = true ->
      replaceNexthopRoute l (Some net) w = Ret None (listed l net w)) /\
  ((exists e, RouteList l fam (kernel w) = inr e) \/
   (exists routes, RouteList l fam (kernel w) = inl routes /\
                   forall r, In r routes -> matchesFilter route net r = false) ->
   exists res w',
     replaceNexthopRoute l (Some net) w = Ret res w' /\
     trace w' = trace w ++ [EvRouteList nodeState (Link_Index l) fam;
                            EvRouteReplace nodeState route] /\
     kernel w' = fst (RouteReplace route (kernel w)) /\
     (res = None <-> snd (RouteReplace route (kernel w)) = None)).
Proof.
  intros route fam. split; [|split].
  - intros r. subst route. rewrite matchesFilter_iff. cbn [LinkIndex Scope Gw nexthopFilter].
    assert (G : IP_Equal (Gw r) None = true <-> len (Gw r) = 0).
    { unfold IP_Equal. cbn [len]. destruct (Nat.eqb_spec (len (Gw r)) 0) as [E|E].
      - destruct (Gw r) as [[|b g]|]; simpl in *; try discriminate; tauto.
      - unfold IPv4len, IPv6len. cbn. rewrite !andb_false_r. split; [discriminate | tauto]. }
    split; intros (rd & A & B & C & D & E & F); exists rd; repeat split; trivial; now apply G.
  - intros routes r L I M. rewrite replaceNexthopRoute_unfold.
    fold fam route. rewrite L.
    destruct (find (matchesFilter route net) routes) eqn:F; [reflexivity|].
    rewrite find_none_all in F. rewrite (F r I) in M. discriminate.
  - intros Hn. rewrite replaceNexthopRoute_unfold. fold fam route.
    assert (F : match RouteList l fam (kernel w) with
                | inl routes => find (matchesFilter route net) routes
                | inr _ => None
                end = None).
    { destruct Hn as [[e ->] | (routes & -> & Hn)]; [reflexivity|].
      now apply find_none_all. }
    rewrite F. cbv zeta. unfold listed; cbn [trace kernel logs].
    destruct (RouteReplace route (kernel w)) as [k' [err|]];
      eexists _, _; (split; [reflexivity|]); cbn [trace kernel fst snd];
      rewrite <- ?app_assoc; cbn [app]; repeat split; triv.
Qed.

(** C10: a route [findRoute] returns agrees with the filter on device index,
    scope, mask length, mask bits, destination address and gateway; a listed
    route whose gateway differs from the filter's is passed over, so when
    every listed route has a different gateway nothing is found and
    [replaceNexthopRoute] issues the replace; when listing the table fails
    [findRoute] returns nil, not an error, and the replace is issued too. *)
Theorem findRoute_spec (l : Link) (idx scope : Z) (fd : IPNet) (src gw : IP)
        (net : IPNet) (w : World) :
  let route := mkRoute idx scope (Some fd) src gw in
  (exists found,
      findRoute l route w = Ret found (listed l fd w) /\
      (forall r, found = Some r ->
                 exists rd,
                   Dst r = Some rd /\
                   LinkIndex r = idx /\ Scope r = scope /\
                   Mask_Size (IPNet_Mask rd) = Mask_Size (IPNet_Mask fd) /\
                   IP_Equal (IPNet_IP rd) (IPNet_IP fd) = true /\
                   IP_Equal (Gw r) gw = true) /\
      (forall routes,
          RouteList l (ipFamily (IPNet_IP fd)) (kernel w) = inl routes ->
          (forall r, In r routes -> IP_Equal (Gw r) gw = false) ->
          found = None) /\
      (forall e, RouteList l (ipFamily (IPNet_IP fd)) (kernel w) = inr e -> found = None)) /\
  (forall r, IP_Equal (Gw r) gw = false -> matchesFilter route fd r = false) /\
  ((exists e, RouteList l (ipFamily (IPNet_IP net)) (kernel w) = inr e) \/
   (exists routes,
       RouteList l (ipFamily (IPNet_IP net)) (kernel w) = inl routes /\
       forall r, In r routes -> IP_Equal (Gw r) None = false) ->
   exists res w',
     replaceNexthopRoute l (Some net) w = Ret res w' /\
     trace w' = trace w ++ [EvRouteList nodeState (Link_Index l) (ipFamily (IPNet_IP net));
                            EvRouteReplace nodeState (nexthopFilter l net)]).
Proof.
  intros route. split; [|split].
  - rewrite (findRoute_unfold l route fd w eq_refl). eexists. split; [reflexivity|].
    split; [|split].
    + intros r F. destruct (RouteList l (ipFamily (IPNet_IP fd)) (kernel w)) as [routes|e];
        [|discriminate].
      apply find_some in F. destruct F as [_ M]. apply matchesFilter_iff in M. exact M.
    + intros routes -> G. apply find_none_all. intros r I.
      apply matchesFilter_gateway. now apply G.
    + intros e ->. reflexivity.
  - intros r. exact (matchesFilter_gateway route fd r).
  - intros Hn. rewrite replaceNexthopRoute_unfold.
    assert (F : match RouteList l (ipFamily (IPNet_IP net)) (kernel w) with
                | inl routes => find (matchesFilter (nexthopFilter l net) net) routes
                | inr _ => None
                end = None).
    { destruct Hn as [[e ->] | (routes & -> & Hn)]; [reflexivity|].
      apply find_none_all. intros r I. apply matchesFilter_gateway. now apply Hn. }
    rewrite F. cbv zeta. unfold listed; cbn [trace kernel logs].
    destruct (RouteReplace (nexthopFilter l net) (kernel w)) as [k' [err|]];
      eexists _, _; (split; [reflexivity|]); cbn [trace];
      rewrite <- ?app_assoc; reflexivity.
Qed.

(** *** [syncClusterRouting] *)

Variable synchronizeToDatapath : nodeState -> M nodeState (K := K) unit.

Local Abbreviation sync := (syncClusterRouting env synchronizeToDatapath).

(** The world after [netlink.LinkByName(HostDevice)]. *)
Local Abbreviation linked w :=
  (mkWorld (kernel w) (trace w ++ [EvLinkByName nodeState (HostDevice env)]) (logs w)).

Local Abbreviation net4 := (mkIPNet (GetInternalIPv4 env) (CIDRMask 32 32)).
Local Abbreviation net6 := (mkIPNet (GetIPv6Router env) (CIDRMask 128 128)).

Lemma sync_unfold_link (cc : clusterConfiguation nodeState) (w : World) :
  sync cc w =
  match LinkByName (HostDevice env) (kernel w) with
  | inr err => Ret (Some err) (linked w)
  | inl l =>
      match replaceNexthopRoute l (Some net4) (linked w) with
      | Panic w1 => Panic w1
      | Ret (Some err) w1 => Ret (Some err) w1
      | Ret None w1 =>
          match replaceNexthopRoute l (Some net6) w1 with
          | Panic w2 => Panic w2
          | Ret (Some err) w2 => Ret (Some err) w2
          | Ret None w2 =>
              bind (forEach (fun ns => bind (emit (EvNodeSync ns))
                                            (fun _ => synchronizeToDatapath ns))
                            (nodes cc))
                   (fun _ =>
                      bind (if negb (usePerNodeRoutes cc)
                            then bind (replaceNodeRoute env (GetIPv4AllocRange env))
                                      (fun _ => replaceNodeRoute env (GetIPv6AllocRange env))
                            else ret tt)
                           (fun _ => bind (forEach (replaceNodeRoute env) (auxPrefixes cc))
                                          (fun _ => ret None))) w2
          end
      end
  end.
Proof.
  unfold syncClusterRouting. unfold bind at 1. unfold netlink_LinkByName.
  unfold bind at 1, emit at 1. cbn [kernel trace logs].
  destruct (LinkByName (HostDevice env) (kernel w)) as [l|err]; [|reflexivity].
  unfold bind at 1.
  destruct (replaceNexthopRoute l (Some net4) _) as [[e4|] w1|w1]; try reflexivity.
  unfold bind at 1.
  destruct (replaceNexthopRoute l (Some net6) w1) as [[e6|] w2|w2]; reflexivity.
Qed.

(** C2 (as amended): a failed nexthop-route installation is logged and ends
    the pass.  When the IPv4 install fails (the route is not found and the
    kernel refuses the replace), [syncClusterRouting] returns an error in the
    world that install left: one error line in the log, and after the device
    lookup only the listing and the refused replace in the trace.  When the
    IPv6 install fails after the IPv4 one went through, it returns the error
    in the world the IPv6 install left.  Either way no node is synchronized
    and no fallback or auxiliary route is written. *)
Theorem syncClusterRouting_stops_at_failed_nexthop
        (cc : clusterConfiguation nodeState) (w : World) (l : Link) :
  LinkByName (HostDevice env) (kernel w) = inl l ->
  (forall k' err,
      match RouteList l (ipFamily (IPNet_IP net4)) (kernel w) with
      | inl routes => find (matchesFilter (nexthopFilter l net4) net4) routes
      | inr _ => None
      end = None ->
      RouteReplace (nexthopFilter l net4) (kernel w) = (k', Some err) ->
      sync cc w =
      Ret (Some "unable to add L2 nexthop route"%string)
          (mkWorld k'
             (trace w ++ [EvLinkByName nodeState (HostDevice env);
                          EvRouteList nodeState (Link_Index l) (ipFamily (IPNet_IP net4));
                          EvRouteReplace nodeState (nexthopFilter l net4)])
             (logs w ++ [mkLog Error "Unable to add L2 nexthop route" (Some err)]))) /\
  (forall e w1,
      replaceNexthopRoute l (Some net4) (linked w) = Ret (Some e) w1 ->
      sync cc w = Ret (Some e) w1) /\
  (forall e w1 w2,
      replaceNexthopRoute l (Some net4) (linked w) = Ret None w1 ->
      replaceNexthopRoute l (Some net6) w1 = Ret (Some e) w2 ->
      sync cc w = Ret (Some e) w2).
Proof.
  intros L. split; [|split].
  - intros k' err F R. rewrite sync_unfold_link, L, replaceNexthopRoute_unfold.
    cbn [kernel]. rewrite F. cbv zeta. rewrite R.
    unfold listed. cbn [kernel trace logs]. rewrite <- !app_assoc. reflexivity.
  - intros e w1 R. now rewrite sync_unfold_link, L, R.
  - intros e w1 w2 R4 R6. now rewrite sync_unfold_link, L, R4, R6.
Qed.

End WithKernel.

(** A remote node whose subnet is reached through a gateway: the validation
    fails and, per-node routes being off, the placeholder comes back. *)
Lemma generateRoute_downgrade_witness :
  exists w',
    generateRoute (Samples.env0 true false) Samples.remoteNode (Some 2)
                  (Samples.world0 (Samples.table [Samples.routed] Samples.accept_all))
    = Ret (fallThrough (Samples.env0 true false) Samples.remoteNode 2) w' /\
    (fallThrough (Samples.env0 true false) Samples.remoteNode 2
       = perNodeRoute (Samples.env0 true false) 2 \/
     fallThrough (Samples.env0 true false) Samples.remoteNode 2 = placeholder 2) /\
    kernel w' = Samples.table [Samples.routed] Samples.accept_all /\
    logs w' = [] ++ (if directEnabled (Samples.env0 true false) Samples.remoteNode
                     then [warned
                             "node IP 10.0.1.5 is routed via another gateway 10.0.0.254"%string]
                     else []) ++ [generated].
Proof.
  eapply (generateRoute_downgrade string (Samples.env0 true false)
            Samples.remoteNode 2
            (Samples.world0 (Samples.table [Samples.routed] Samples.accept_all))).
  vm_compute. reflexivity.
Defined.

(** The local node with direct routing on and per-node routes off. *)
Lemma generateRoute_local_witness :
  exists w',
    generateRoute (Samples.env0 true false) (Samples.localNode true false) (Some 2)
                  (Samples.world0 (Samples.table [Samples.connected] Samples.accept_all))
    = Ret (perNodeRoute (Samples.env0 true false) 2) w' /\
    link (perNodeRoute (Samples.env0 true false) 2) = "cilium_host"%string /\
    via (perNodeRoute (Samples.env0 true false) 2) = Samples.router4 /\
    source (perNodeRoute (Samples.env0 true false) 2) = Samples.router4 /\
    kernel w' = Samples.table [Samples.connected] Samples.accept_all /\
    trace w' = [].
Proof.
  apply (generateRoute_local string (Samples.env0 true false)
           (Samples.localNode true false) 2
           (Samples.world0 (Samples.table [Samples.connected] Samples.accept_all))).
  reflexivity.
Defined.

(** The table holds a link-scoped route to the router address on the host
    device, but through a gateway: it agrees with the filter on device index,
    scope and destination, and still the replace is issued and the route
    overwritten. *)
Lemma replaceNexthopRoute_replaces_despite_match :
  let w := Samples.world0 (Samples.table [Samples.nexthop4_gw] Samples.accept_all) in
  RouteList Samples.host FAMILY_V4 (kernel w) = inl [Samples.nexthop4_gw] /\
  matchesIndexScopeDst (nexthopFilter Samples.host Samples.routerNet4)
                       Samples.routerNet4 Samples.nexthop4_gw = true /\
  exists w',
    replaceNexthopRoute Samples.host (Some Samples.routerNet4) w = Ret None w' /\
    In (EvRouteReplace string Samples.nexthop4) (trace w') /\
    tb_routes (kernel w) = [Samples.nexthop4_gw] /\
    tb_routes (kernel w') = [Samples.nexthop4].
Proof.
  cbv zeta. split; [reflexivity|]. split; [reflexivity|].
  eexists. split; [vm_compute; reflexivity|].
  split; [right; left; reflexivity|]. split; reflexivity.
Defined.

(** The link-scoped route is installed: nothing is replaced. *)
Lemma replaceNexthopRoute_spec_witness :
  replaceNexthopRoute Samples.host (Some Samples.routerNet4)
                      (Samples.world0 (Samples.table [Samples.nexthop4] Samples.accept_all))
  = Ret None (listed Samples.host Samples.routerNet4
                     (Samples.world0 (Samples.table [Samples.nexthop4] Samples.accept_all))).
Proof.
  apply (proj1 (proj2 (replaceNexthopRoute_spec string Samples.host Samples.routerNet4
                         (Samples.world0 (Samples.table [Samples.nexthop4] Samples.accept_all))))
           [Samples.nexthop4] Samples.nexthop4).
  - reflexivity.
  - left; reflexivity.
  - reflexivity.
Defined.

(** The route through a gateway is listed, and the replace is issued. *)
Lemma findRoute_spec_witness :
  exists res w',
    replaceNexthopRoute Samples.host (Some Samples.routerNet4)
                        (Samples.world0 (Samples.table [Samples.nexthop4_gw] Samples.accept_all))
    = Ret res w' /\
    trace w' = [] ++ [EvRouteList string 7 (ipFamily (IPNet_IP Samples.routerNet4));
                      EvRouteReplace string (nexthopFilter Samples.host Samples.routerNet4)].
Proof.
  apply (proj2 (proj2 (findRoute_spec string Samples.host 7 SCOPE_LINK Samples.routerNet4
                         None None Samples.routerNet4
                         (Samples.world0 (Samples.table [Samples.nexthop4_gw]
                                                        Samples.accept_all))))).
  right. exists [Samples.nexthop4_gw]. split; [reflexivity|].
  intros r [<- | []]. reflexivity.
Defined.

(** The kernel refuses the link-scoped IPv4 route: the pass stops there.
    The IPv6 nexthop is not looked up, the node is not synchronized, and no
    route but the refused one was sent to the kernel. *)
Lemma syncClusterRouting_aborts_on_ipv4_failure :
  exists w',
    syncClusterRouting (Samples.env0 true false) Samples.hook0 Samples.cc0
                       (Samples.world0 (Samples.table [] Samples.refuse_link4))
    = Ret (Some "unable to add L2 nexthop route"%string) w' /\
    trace w' = [EvLinkByName string "cilium_host";
                EvRouteList string 7 FAMILY_V4;
                EvRouteReplace string Samples.nexthop4] /\
    ~ In (EvRouteList string 7 FAMILY_V6) (trace w') /\
    ~ In (EvNodeSync "node-r"%string) (trace w') /\
    (forall r, In (EvRouteReplace string r) (trace w') -> r = Samples.nexthop4) /\
    tb_routes (kernel w') = [].
Proof.
  eexists. split; [vm_compute; reflexivity|]. cbn [trace kernel tb_routes].
  split; [reflexivity|]. split; [|split; [|split]].
  - intros [E | [E | [E | []]]]; discriminate.
  - intros [E | [E | [E | []]]]; discriminate.
  - intros r [E | [E | [E | []]]]; try discriminate. now inversion E.
  - reflexivity.
Defined.

Lemma syncClusterRouting_stops_at_failed_nexthop_witness :
  syncClusterRouting (Samples.env0 true false) Samples.hook0 Samples.cc0
                     (Samples.world0 (Samples.table [] Samples.refuse_link4))
  = Ret (Some "unable to add L2 nexthop route"%string)
        (mkWorld (Samples.table [] Samples.refuse_link4)
                 ([] ++ [EvLinkByName string "cilium_host";
                         EvRouteList string 7 FAMILY_V4;
                         EvRouteReplace string Samples.nexthop4])
                 ([] ++ [mkLog Error "Unable to add L2 nexthop route"
                               (Some "invalid argument"%string)])).
Proof.
  assert (L : LinkByName "cilium_host" (Samples.table [] Samples.refuse_link4)
              = inl Samples.host) by reflexivity.
  apply (proj1 (syncClusterRouting_stops_at_failed_nexthop
                  string (Samples.env0 true false) Samples.hook0 Samples.cc0
                  (Samples.world0 (Samples.table [] Samples.refuse_link4))
                  Samples.host L)
           (Samples.table [] Samples.refuse_link4) "invalid argument"%string);
    reflexivity.
Defined.

End RoutingFacts.

(* ===================================================================== *)
(** ** Properties of client.go *)
(* ===================================================================== *)

Module KvstoreFacts.
Import Kvstore.

Section WithBackend.

Variables BackendOperations Lease backendModule error : Type.
Variable newClient : backendModule -> BackendOperations + error.
Variable renewDefaultLease :
  option BackendOperations -> option Lease -> option Lease * option error.

Local Abbreviation Globals := (Globals BackendOperations Lease).
Local Abbreviation initClient := (initClient newClient renewDefaultLease).
Local Abbreviation initAll := (initAll newClient renewDefaultLease).

(** A failing call leaves [defaultClient] nil if it was nil. *)
Lemma initClient_failure_keeps_nil (m : backendModule) (g g' : Globals) (e : error) :
  Client g = None -> initClient m g = (g', Some e) -> Client g' = None.
Proof.
  unfold Kvstore.initClient, Client. intros N I.
  destruct (newClient m) as [c|err].
  - cbn [defaultClient leaseInstance] in I.
    destruct (renewDefaultLease (Some c) (leaseInstance g)) as [lease [err|]];
      inversion I; reflexivity.
  - inversion I; subst. exact N.
Qed.

Lemma initAll_failures_keep_nil (ms : list backendModule) (g g' : Globals)
      (es : list (option error)) :
  Client g = None -> initAll ms g = (g', es) ->
  (forall e, In e es -> e <> None) -> Client g' = None.
Proof.
  revert g g' es. induction ms as [|m ms IH]; intros g g' es N I F; simpl in I.
  - inversion I; subst. exact N.
  - destruct (initClient m g) as [g1 e] eqn:E1.
    destruct (initAll ms g1) as [g2 es'] eqn:E2.
    inversion I; subst. apply (IH g1 g' es'); trivial.
    + destruct e as [e|].
      * exact (initClient_failure_keeps_nil m g g1 e N E1).
      * exfalso. apply (F None); [now left | reflexivity].
    + intros e' I'. apply F. now right.
Qed.

(** C8 (as amended): [Client()] is nil when the package is loaded and stays
    nil through any run of [initClient] calls none of which succeeded; a call
    whose lease renewal fails returns the renewal's error and leaves
    [defaultClient] nil, whatever it held before; a call whose client
    creation fails returns that error and touches no package variable; every
    error returned is one of these two; a call that succeeds leaves the new
    client in [defaultClient]. *)
Theorem initClient_spec :
  Client (initial BackendOperations Lease) = None /\
  (forall ms g es,
      initAll ms (initial BackendOperations Lease) = (g, es) ->
      (forall e, In e es -> e <> None) -> Client g = None) /\
  (forall m g c lease e,
      newClient m = inl c ->
      renewDefaultLease (Some c) (leaseInstance g) = (lease, Some e) ->
      exists g', initClient m g = (g', Some e) /\ Client g' = None) /\
  (forall m g e, newClient m = inr e -> initClient m g = (g, Some e)) /\
  (forall m g g' e, initClient m g = (g', Some e) ->
                    newClient m = inr e \/
                    exists c lease, newClient m = inl c /\
                      renewDefaultLease (Some c) (leaseInstance g) = (lease, Some e)) /\
  (forall m g g', initClient m g = (g', None) ->
                  exists c, newClient m = inl c /\ Client g' = Some c).
Proof.
  split; [reflexivity|]. split; [|split; [|split; [|split]]].
  - intros ms g es I F.
    exact (initAll_failures_keep_nil ms (initial _ _) g es eq_refl I F).
  - intros m g c lease e Nc R. unfold Kvstore.initClient. rewrite Nc.
    cbn [defaultClient leaseInstance]. rewrite R. eexists. split; reflexivity.
  - intros m g e Nc. unfold Kvstore.initClient. now rewrite Nc.
  - intros m g g' e I. unfold Kvstore.initClient in I.
    destruct (newClient m) as [c|err].
    + right. cbn [defaultClient leaseInstance] in I.
      destruct (renewDefaultLease (Some c) (leaseInstance g)) as [lease [err|]] eqn:R;
        inversion I; subst. now exists c, lease.
    + left. inversion I; reflexivity.
  - intros m g g' I. unfold Kvstore.initClient in I.
    destruct (newClient m) as [c|err]; [|discriminate].
    cbn [defaultClient leaseInstance] in I.
    destruct (renewDefaultLease (Some c) (leaseInstance g)) as [lease [err|]];
      inversion I. now exists c.
Qed.

End WithBackend.

(** A first call that cannot create a client, then one whose lease is not
    granted: both return their error and [Client()] is still nil. *)
Lemma initClient_spec_witness :
  Kvstore.initAll Samples.newClient0 Samples.renewDefaultLease0 [0; 1] (initial nat nat)
  = (initial nat nat, [Some "no endpoints"%string; Some "lease not granted"%string]) /\
  Client (initial nat nat) = None.
Proof.
  split; [reflexivity|].
  apply (proj1 (proj2 (initClient_spec nat nat nat string
                         Samples.newClient0 Samples.renewDefaultLease0))
           [0; 1] (initial nat nat)
           [Some "no endpoints"%string; Some "lease not granted"%string]).
  - reflexivity.
  - intros e [<- | [<- | []]]; discriminate.
Defined.

(** A call that succeeds, then one that cannot create a client: the second
    fails and [Client()] still returns the client of the first. *)
Lemma initClient_failure_keeps_earlier_client :
  exists g1 g2 e,
    Kvstore.initClient Samples.newClient0 Samples.renewDefaultLease0 2 (initial nat nat)
    = (g1, None) /\
    Kvstore.initClient Samples.newClient0 Samples.renewDefaultLease0 0 g1 = (g2, Some e) /\
    Client g2 = Some 1.
Proof.
  eexists _, _, _. split; [reflexivity|]. split; reflexivity.
Defined.

End KvstoreFacts.

(* ===================================================================== *)
(** ** Running the pass twice on the in-memory table *)
(* ===================================================================== *)

Module PassFacts.
Import GoNet Netlink Routing MemKernel Pass GoNetFacts RoutingFacts.

(** *** Destinations and [upsert] *)

Lemma same_dst_spec (a b : Route) : reflect (dstKey a = dstKey b) (same_dst a b).
Proof.
  unfold same_dst, dstKey. destruct (Dst a) as [x|], (Dst b) as [y|];
    try (constructor; congruence).
  destruct (Mask_Size (IPNet_Mask x)) as [a1 a2], (Mask_Size (IPNet_Mask y)) as [b1 b2].
  cbn [fst snd]. apply iff_reflect.
  rewrite !andb_true_iff, !Z.eqb_eq, IP_Equal_canonical. split.
  - intros E. inversion E. auto.
  - intros [[E1 E2] E3]. congruence.
Qed.

Lemma same_dst_refl (a : Route) : same_dst a a = true.
Proof. now destruct (same_dst_spec a a). Qed.

Lemma same_dst_key (a b c : Route) : dstKey b = dstKey c -> same_dst a b = same_dst a c.
Proof.
  intros E. destruct (same_dst_spec a b), (same_dst_spec a c); congruence.
Qed.

Lemma upsert_same (r r' : Route) (X : list Route) :
  dstKey r = dstKey r' -> upsert r (upsert r' X) = upsert r X.
Proof.
  intros E. induction X as [|e X IH]; simpl.
  - destruct (same_dst_spec r' r); congruence.
  - rewrite (same_dst_key e r r' E). destruct (same_dst e r') eqn:Ee; simpl.
    + destruct (same_dst_spec r' r); congruence.
    + rewrite (same_dst_key e r r' E), Ee. now rewrite IH.
Qed.

Lemma upsert_idem (r : Route) (X : list Route) : upsert r (upsert r X) = upsert r X.
Proof. now apply upsert_same. Qed.

Lemma present_key (r r' : Route) (X : list Route) :
  dstKey r = dstKey r' -> present r X = present r' X.
Proof.
  intros E. unfold present. induction X as [|e X IH]; simpl; [reflexivity|].
  now rewrite IH, (same_dst_key e r r' E).
Qed.

Lemma present_upsert (r : Route) (X : list Route) : present r (upsert r X) = true.
Proof.
  unfold present. induction X as [|e X IH]; simpl.
  - now rewrite same_dst_refl.
  - destruct (same_dst e r) eqn:E; simpl.
    + now rewrite same_dst_refl.
    + now rewrite E.
Qed.

Lemma present_upsert_keep (r r' : Route) (X : list Route) :
  present r X = true -> present r (upsert r' X) = true.
Proof.
  unfold present. induction X as [|e X IH]; simpl; [discriminate|].
  intros P. destruct (same_dst e r') eqn:E'; simpl.
  - destruct (same_dst e r) eqn:E; simpl in *; [|rewrite P; apply orb_true_r].
    destruct (same_dst_spec e r'), (same_dst_spec e r); try discriminate.
    destruct (same_dst_spec r' r); [reflexivity | congruence].
  - destruct (same_dst e r); simpl in *; auto.
Qed.

Lemma upsert_comm (r r' : Route) (X : list Route) :
  dstKey r <> dstKey r' ->
  present r X = true \/ present r' X = true ->
  upsert r (upsert r' X) = upsert r' (upsert r X).
Proof.
  intros D.
  assert (D1 : same_dst r' r = false) by (destruct (same_dst_spec r' r); congruence).
  assert (D2 : same_dst r r' = false) by (destruct (same_dst_spec r r'); congruence).
  unfold present. induction X as [|e X IH]; simpl.
  - intros [P | P]; discriminate.
  - intros P. destruct (same_dst e r') eqn:E', (same_dst e r) eqn:E; simpl;
      rewrite ?E, ?E', ?D1, ?D2; trivial.
    + exfalso. destruct (same_dst_spec e r'), (same_dst_spec e r); congruence.
    + f_equal. apply IH. exact P.
Qed.

Lemma existsb_upsert_none {f : Route -> bool} (r : Route) (X : list Route) :
  existsb f X = false -> f r = false -> existsb f (upsert r X) = false.
Proof.
  intros F R. induction X as [|e X IH]; simpl in *.
  - now rewrite R.
  - apply orb_false_iff in F. destruct F as [Fe FX].
    destruct (same_dst e r); simpl; [now rewrite R | now rewrite Fe, IH].
Qed.

Lemma existsb_upsert_other {f : Route -> bool} (r : Route) (X : list Route) :
  f r = false -> (forall e, same_dst e r = true -> f e = false) ->
  existsb f (upsert r X) = existsb f X.
Proof.
  intros R S. induction X as [|e X IH]; simpl.
  - now rewrite R.
  - destruct (same_dst e r) eqn:E; simpl; [now rewrite R, (S e E) | now rewrite IH].
Qed.

(** *** One write *)

Section Ops.

Variable refuse : Route -> bool.
Variable list_fails : bool.
Variable l : Link.

Local Abbreviation N := (nexthopFilter l).
Local Abbreviation hit := (hit l).
Local Abbreviation found := (found list_fails l).
Local Abbreviation write := (write refuse).
Local Abbreviation ensure := (ensure refuse list_fails l).
Local Abbreviation step := (step refuse list_fails l).
Local Abbreviation run := (run refuse list_fails l).
Local Abbreviation route_of := (route_of l).

Lemma hit_key (n : IPNet) (e : Route) : hit n e = true -> dstKey e = dstKey (N n).
Proof.
  unfold Pass.hit. rewrite !andb_true_iff. intros [_ M].
  apply matchesFilter_iff in M. destruct M as (rd & D & _ & _ & Ms & Ip & _).
  unfold dstKey. rewrite D. cbn [Dst nexthopFilter].
  apply IP_Equal_canonical in Ip. congruence.
Qed.

Lemma hit_scope (n : IPNet) (e : Route) : Scope e <> SCOPE_LINK -> hit n e = false.
Proof.
  intros Sc. destruct (hit n e) eqn:Hh; [|reflexivity].
  unfold Pass.hit in Hh. rewrite !andb_true_iff in Hh. destruct Hh as [_ M].
  apply matchesFilter_iff in M. destruct M as (rd & _ & _ & S' & _). now elim Sc.
Qed.

Lemma hit_other_key (n : IPNet) (e : Route) : dstKey e <> dstKey (N n) -> hit n e = false.
Proof.
  intros D. destruct (hit n e) eqn:Hh; [|reflexivity]. now apply hit_key in Hh.
Qed.

Lemma hits_upsert_other (n : IPNet) (r : Route) (X : list Route) :
  dstKey r <> dstKey (N n) -> existsb (hit n) (upsert r X) = existsb (hit n) X.
Proof.
  intros D. apply existsb_upsert_other.
  - now apply hit_other_key.
  - intros e E. apply hit_other_key. destruct (same_dst_spec e r); congruence.
Qed.

Lemma found_upsert_other (n : IPNet) (r : Route) (X : list Route) :
  dstKey r <> dstKey (N n) -> found n (upsert r X) = found n X.
Proof. intros D. unfold Pass.found. now rewrite hits_upsert_other. Qed.

Lemma write_cases (r : Route) (X : list Route) :
  (refuse r = true /\ write r X = X) \/ (refuse r = false /\ write r X = upsert r X).
Proof. unfold Pass.write. destruct (refuse r); auto. Qed.

Lemma step_cases (o : op) (X : list Route) :
  step o X = X \/ (refuse (route_of o) = false /\ step o X = upsert (route_of o) X).
Proof.
  destruct o as [n|r]; cbn [Pass.step Pass.route_of]; unfold Pass.ensure.
  - destruct (found n X); [now left|].
    destruct (write_cases (N n) X) as [[_ ->] | [A ->]]; auto.
  - destruct (write_cases r X) as [[_ ->] | [A ->]]; auto.
Qed.

Lemma present_step (r : Route) (o : op) (X : list Route) :
  present r X = true -> present r (step o X) = true.
Proof.
  intros P. destruct (step_cases o X) as [-> | [_ ->]]; trivial.
  now apply present_upsert_keep.
Qed.

Lemma present_run (r : Route) (ops : list op) (X : list Route) :
  present r X = true -> present r (run ops X) = true.
Proof.
  revert X. induction ops as [|o ops IH]; intros X P; cbn; trivial.
  apply IH. now apply present_step.
Qed.

Lemma present_after_step (o : op) (X : list Route) :
  refuse (route_of o) = false -> present (route_of o) (step o X) = true.
Proof.
  intros A. destruct o as [n|r]; cbn [Pass.step Pass.route_of] in *.
  - unfold Pass.ensure. destruct (found n X) eqn:F.
    + unfold Pass.found in F. apply andb_true_iff in F. destruct F as [_ F].
      apply existsb_exists in F. destruct F as (e & I & Hh).
      unfold present. apply existsb_exists. exists e. split; trivial.
      apply hit_key in Hh. destruct (same_dst_spec e (N n)); congruence.
    + unfold Pass.write. rewrite A. apply present_upsert.
  - unfold Pass.write. rewrite A. apply present_upsert.
Qed.

(** Every write of the pass that the kernel accepts has its destination in
    the table when the pass is over. *)
Lemma covered_run (ops : list op) (X : list Route) (o : op) :
  In o ops -> refuse (route_of o) = false -> present (route_of o) (run ops X) = true.
Proof.
  revert X. induction ops as [|o' ops IH]; intros X I A; [destruct I|].
  cbn. destruct I as [-> | I].
  - apply present_run. now apply present_after_step.
  - now apply IH.
Qed.

(** *** Tables that differ in the route to one destination *)

Lemma step_same_key (r : Route) (o : op) (X : list Route) :
  dstKey r = dstKey (route_of o) -> upsert r (step o X) = upsert r X.
Proof.
  intros E. destruct (step_cases o X) as [-> | [_ ->]]; trivial. now apply upsert_same.
Qed.

Lemma step_differ (r : Route) (o : op) (X Y : list Route) :
  upsert r X = upsert r Y ->
  present r X = true ->
  (refuse (route_of o) = false -> present (route_of o) Y = true) ->
  upsert r (step o X) = upsert r (step o Y).
Proof.
  intros E PX PY.
  destruct (same_dst_spec r (route_of o)) as [Kk|Kk].
  { now rewrite !step_same_key. }
  assert (W : forall r', dstKey r <> dstKey r' ->
                         (refuse r' = false -> present r' Y = true) ->
                         upsert r (write r' X) = upsert r (write r' Y)).
  { intros r' D P'. unfold Pass.write. destruct (refuse r'); trivial.
    rewrite (upsert_comm r r' X D (or_introl PX)).
    rewrite (upsert_comm r r' Y D (or_intror (P' eq_refl))). now rewrite E. }
  destruct o as [n|r']; cbn [Pass.step Pass.route_of] in *.
  - unfold Pass.ensure.
    assert (F : found n X = found n Y).
    { rewrite <- (found_upsert_other n r X), <- (found_upsert_other n r Y) by congruence.
      now rewrite E. }
    rewrite F. destruct (found n Y); trivial. now apply W.
  - now apply W.
Qed.

Lemma run_differ (r : Route) (ops : list op) (X Y : list Route) :
  upsert r X = upsert r Y ->
  present r X = true ->
  (forall o, In o ops -> refuse (route_of o) = false -> present (route_of o) Y = true) ->
  upsert r (run ops X) = upsert r (run ops Y).
Proof.
  revert X Y. induction ops as [|o ops IH]; intros X Y E PX C; cbn; trivial.
  apply IH.
  - apply step_differ; trivial. apply C. now left.
  - now apply present_step.
  - intros o' I A. apply present_step. apply C; trivial. now right.
Qed.

(** *** The nexthop route once written *)

Local Abbreviation settled := (settled l).

Lemma settled_init (n : IPNet) (X : list Route) :
  existsb (hit n) X = false -> settled n (upsert (N n) X).
Proof.
  intros F. split; [apply present_upsert|]. split.
  - intros r Kr Hr. rewrite (upsert_same r (N n) X Kr). now apply existsb_upsert_none.
  - left. apply upsert_idem.
Qed.

Lemma settled_upsert_other (n : IPNet) (r : Route) (X : list Route) :
  dstKey r <> dstKey (N n) -> settled n X -> settled n (upsert r X).
Proof.
  intros D (P & Q & I). split; [now apply present_upsert_keep|]. split.
  - intros r' Kr Hr.
    rewrite (upsert_comm r' r X) by
        (try congruence; left; rewrite (present_key r' (N n) X Kr); exact P).
    rewrite hits_upsert_other by exact D. now apply Q.
  - destruct I as [I | I].
    + left. rewrite (upsert_comm (N n) r X) by (try congruence; now left). now rewrite I.
    + right. now rewrite hits_upsert_other.
Qed.

Lemma settled_upsert_nohit (n : IPNet) (r : Route) (X : list Route) :
  dstKey r = dstKey (N n) -> hit n r = false -> settled n X -> settled n (upsert r X).
Proof.
  intros E Hr (P & Q & I). split; [now apply present_upsert_keep|]. split.
  - intros r' Kr Hr'. rewrite (upsert_same r' r X) by congruence. now apply Q.
  - right. now apply Q.
Qed.

Lemma settled_upsert_self (n : IPNet) (X : list Route) :
  settled n X -> settled n (upsert (N n) X).
Proof.
  intros (P & Q & I). split; [now apply present_upsert_keep|]. split.
  - intros r' Kr Hr'. rewrite (upsert_same r' (N n) X Kr). now apply Q.
  - left. apply upsert_idem.
Qed.

Lemma settled_step (n : IPNet) (o : op) (X : list Route) :
  compatible l n o -> settled n X -> settled n (step o X).
Proof.
  intros C S. destruct (step_cases o X) as [-> | [_ ->]]; trivial.
  destruct o as [n'|r]; cbn [Pass.route_of Pass.compatible] in *.
  - destruct C as [-> | D]; [now apply settled_upsert_self | now apply settled_upsert_other].
  - destruct (same_dst_spec r (N n)) as [E|D];
      [now apply settled_upsert_nohit | now apply settled_upsert_other].
Qed.

Lemma settled_run (n : IPNet) (ops : list op) (X : list Route) :
  (forall o, In o ops -> compatible l n o) -> settled n X -> settled n (run ops X).
Proof.
  revert X. induction ops as [|o ops IH]; intros X C S; cbn; trivial.
  apply IH.
  - intros o' I. apply C. now right.
  - apply settled_step; trivial. apply C. now left.
Qed.

(** *** The writes of a pass, run twice *)

Lemma run_app (ops ops' : list op) (X : list Route) :
  run (ops ++ ops') X = run ops' (run ops X).
Proof. apply fold_left_app. Qed.

Lemma wellFormed_compatible (ops : list op) (n : IPNet) (o : op) :
  wellFormed l (ops ++ [Ensure n]) -> In o ops -> compatible l n o.
Proof.
  intros [Wp We] I. destruct o as [n'|r]; cbn.
  - apply We; apply in_or_app; [now left | right; now left].
  - apply hit_scope. apply Wp. apply in_or_app. now left.
Qed.

Lemma wellFormed_front (ops : list op) (o : op) :
  wellFormed l (ops ++ [o]) -> wellFormed l ops.
Proof.
  intros [Wp We]. split.
  - intros r I. apply Wp. apply in_or_app. now left.
  - intros n n' I I'. apply We; apply in_or_app; now left.
Qed.

(** Running the writes of a pass a second time changes nothing. *)
Lemma run_twice (ops : list op) (X : list Route) :
  wellFormed l ops -> run ops (run ops X) = run ops X.
Proof.
  revert X. induction ops as [|o ops IH] using rev_ind; intros X W; [reflexivity|].
  specialize (IH X (wellFormed_front ops o W)).
  rewrite !run_app. cbn [Pass.run fold_left]. fold (run ops X) in *.
  set (S' := run ops X) in *. fold (run ops (step o S')).
  assert (D : forall r, refuse r = false ->
                        upsert r (run ops (upsert r S')) = upsert r S').
  { intros r A. rewrite <- IH at 2. apply run_differ.
    - apply upsert_idem.
    - apply present_upsert.
    - intros o' I A'. subst S'. now apply covered_run. }
  destruct o as [n|r]; cbn [Pass.step].
  - destruct (found n S') eqn:F.
    { assert (E : ensure n S' = S') by (unfold Pass.ensure; now rewrite F).
      now rewrite E, IH. }
    destruct (refuse (N n)) eqn:A.
    { assert (E : ensure n S' = S') by (unfold Pass.ensure, Pass.write; now rewrite F, A).
      now rewrite E, IH. }
    assert (E : ensure n S' = upsert (N n) S')
      by (unfold Pass.ensure, Pass.write; now rewrite F, A).
    rewrite E. specialize (D (N n) A).
    set (Z := run ops (upsert (N n) S')) in *.
    unfold Pass.ensure. destruct (Pass.found list_fails l n Z) eqn:FZ.
    + unfold Pass.found in F, FZ. apply andb_true_iff in FZ. destruct FZ as [Lf FZ].
      rewrite Lf in F. cbn in F.
      assert (S : settled n Z).
      { apply settled_run; [|now apply settled_init].
        intros o I. exact (wellFormed_compatible ops n o W I). }
      destruct S as (_ & _ & [S | S]); [|congruence].
      now rewrite <- S, D.
    + unfold Pass.write. now rewrite A.
  - destruct (refuse r) eqn:A.
    { assert (E : write r S' = S') by (unfold Pass.write; now rewrite A).
      now rewrite E, IH. }
    unfold Pass.write. rewrite A. exact (D r A).
Qed.

Lemma ensure_twice (n : IPNet) (X : list Route) : ensure n (ensure n X) = ensure n X.
Proof. apply (run_twice [Ensure n] X). split; [intros r [E|[]]; discriminate|].
  intros m m' [E|[]] [E'|[]]. left. congruence.
Qed.

End Ops.

(** *** The pass on the table *)

Lemma onRoutes_id (t : Table) : onRoutes (fun X => X) t = t.
Proof. now destruct t. Qed.

Lemma tRun_nil (l : Link) (t : Table) : tRun l [] t = t.
Proof. apply onRoutes_id. Qed.

Lemma tRun_app (l : Link) (ops ops' : list op) (t : Table) :
  tRun l (ops ++ ops') t = tRun l ops' (tRun l ops t).
Proof. unfold tRun, onRoutes. cbn. now rewrite run_app. Qed.

Lemma tRun_cons (l : Link) (o : op) (ops : list op) (t : Table) :
  tRun l (o :: ops) t = tRun l ops (tRun l [o] t).
Proof. exact (tRun_app l [o] ops t). Qed.

Lemma tRun_twice (l : Link) (ops : list op) (t : Table) :
  wellFormed l ops -> tRun l ops (tRun l ops t) = tRun l ops t.
Proof. intros W. unfold tRun, onRoutes. cbn. now rewrite run_twice. Qed.


Lemma replace_tRun (l : Link) (r : Route) (t : Table) :
  fst (RouteReplace r t) = tRun l [Put r] t.
Proof.
  unfold tRun, onRoutes. cbn. unfold write. destruct t as [ls rs rf lf]. cbn.
  now destruct (rf r).
Qed.

Lemma replace_refused (r : Route) (t : Table) :
  snd (RouteReplace r t) = None <-> tb_refuse t r = false.
Proof. cbn. destruct (tb_refuse t r); cbn; split; congruence. Qed.

Lemma writes_tRun (l : Link) (rs : list Route) (t : Table) :
  writes rs t = tRun l (map Put rs) t.
Proof.
  revert t. induction rs as [|r rs IH]; intros t; cbn [map].
  - symmetry. apply tRun_nil.
  - rewrite tRun_cons, <- replace_tRun. apply IH.
Qed.

Lemma find_filter (f g : Route -> bool) (X : list Route) :
  find f (filter g X) = None <-> existsb (fun e => g e && f e) X = false.
Proof.
  induction X as [|e X IH]; cbn; [tauto|].
  destruct (g e); cbn; [|exact IH].
  destruct (f e); cbn; [split; discriminate | exact IH].
Qed.

(** What [findRoute] finds in the table for the nexthop route of [n]. *)
Lemma lookup_found (l : Link) (n : IPNet) (t : Table) :
  match RouteList l (ipFamily (IPNet_IP n)) t with
  | inl routes => find (matchesFilter (nexthopFilter l n) n) routes
  | inr _ => None
  end = None <->
  found (tb_list_fails t) l n (tb_routes t) = false.
Proof.
  unfold found. cbn. destruct (tb_list_fails t); cbn; [tauto|].
  rewrite find_filter. unfold hit. tauto.
Qed.

Lemma tRun_ensure (l : Link) (n : IPNet) (t : Table) :
  tRun l [Ensure n] t =
  if found (tb_list_fails t) l n (tb_routes t) then t
  else tRun l [Put (nexthopFilter l n)] t.
Proof.
  unfold tRun, onRoutes. cbn [run fold_left step]. unfold ensure.
  destruct (found (tb_list_fails t) l n (tb_routes t)); [now destruct t | reflexivity].
Qed.

Section OnTable.

Variable nodeState : Type.
Variable env : Env.

Local Abbreviation World := (World nodeState (K := Table)).

Lemma replaceNexthopRoute_table (l : Link) (n : IPNet) (w : World) :
  exists res w',
    replaceNexthopRoute l (Some n) w = Ret res w' /\
    kernel w' = tRun l [Ensure n] (kernel w) /\
    (res = None <-> tEnsureFails l n (kernel w) = false).
Proof.
  rewrite replaceNexthopRoute_unfold. unfold tEnsureFails, ensureFails.
  destruct (found (tb_list_fails (kernel w)) l n (tb_routes (kernel w))) eqn:F.
  - destruct (match RouteList l (ipFamily (IPNet_IP n)) (kernel w) with
              | inl routes => find (matchesFilter (nexthopFilter l n) n) routes
              | inr _ => None
              end) as [r|] eqn:L.
    + eexists _, _. split; [reflexivity|]. cbn [kernel listed]. split; [|tauto].
      now rewrite tRun_ensure, F.
    + apply lookup_found in L. congruence.
  - apply lookup_found in F. rewrite F. cbv zeta.
    pose proof (replace_tRun l (nexthopFilter l n) (kernel w)) as R.
    pose proof (replace_refused (nexthopFilter l n) (kernel w)) as A.
    apply lookup_found in F.
    assert (E : tRun l [Ensure n] (kernel w) = tRun l [Put (nexthopFilter l n)] (kernel w)).
    { now rewrite tRun_ensure, F. }
    destruct (RouteReplace (nexthopFilter l n) (kernel w)) as [k' [err|]];
      cbn [fst snd] in *; eexists _, _; (split; [reflexivity|]); cbn [kernel];
      rewrite E; (split; [exact R|]); cbn [negb andb].
    + split; [discriminate|]. intros C. apply A in C. discriminate.
    + split; [intros _; now apply A | reflexivity].
Qed.

Lemma replaceNodeRoute_table (l : Link) (ip : option IPNet) (w : World) :
  LinkByName (HostDevice env) (kernel w) = inl l ->
  exists w',
    replaceNodeRoute env ip w = Ret tt w' /\
    kernel w' = tRun l (nodeRouteOps env l ip) (kernel w).
Proof.
  intros L. unfold replaceNodeRoute, nodeRouteOps.
  destruct ip as [n|]; [|eexists; split; [reflexivity | symmetry; apply tRun_nil]].
  unfold bind at 1, netlink_LinkByName, bind at 1, emit. cbn [kernel trace logs].
  rewrite L.
  assert (G : forall (net : IPNet) (via local : IP) (u : World),
             kernel u = kernel w ->
             exists w',
               bind (replaceNexthopRoute l (Some net))
                    (fun e =>
                       bind (match e with
                             | Some err => log Error "Unable to add nexthop route" (Some err)
                             | None => ret tt
                             end)
                            (fun _ =>
                               bind (netlink_RouteReplace
                                       (mkRoute (Link_Index l) SCOPE_UNIVERSE (Some n) local via))
                                    (fun e0 =>
                                       match e0 with
                                       | Some err =>
                                           log Error "Unable to add node route" (Some err)
                                       | None => log Debug "Replaced node route" None
                                       end))) u = Ret tt w' /\
               kernel w' = tRun l [Ensure net;
                                   Put (mkRoute (Link_Index l) SCOPE_UNIVERSE (Some n) local via)]
                                (kernel w)).
  { intros net via local u Ku.
    destruct (replaceNexthopRoute_table l net u) as (res & u1 & R & K1 & _).
    unfold bind at 1. rewrite R.
    pose proof (replace_tRun l (mkRoute (Link_Index l) SCOPE_UNIVERSE (Some n) local via)
                             (kernel u1)) as P.
    destruct res as [err|]; run;
      (destruct (RouteReplace _ (kernel u1)) as [k' [err'|]]; cbn [fst] in P;
       eexists; (split; [reflexivity|]); cbn [kernel];
       now rewrite P, K1, Ku, (tRun_cons l (Ensure net))). }
  unfold net4, net6.
  destruct (negb (isNil (To4 (IPNet_IP n)))); apply G; reflexivity.
Qed.

Lemma forEach_replaceNodeRoute (l : Link) (ips : list (option IPNet)) (w : World) :
  LinkByName (HostDevice env) (kernel w) = inl l ->
  exists w',
    forEach (replaceNodeRoute env) ips w = Ret tt w' /\
    kernel w' = tRun l (flat_map (nodeRouteOps env l) ips) (kernel w).
Proof.
  revert w. induction ips as [|ip ips IH]; intros w L; cbn [forEach flat_map].
  - eexists. split; [reflexivity|]. symmetry. apply tRun_nil.
  - destruct (replaceNodeRoute_table l ip w L) as (w1 & R & K1).
    unfold bind. rewrite R.
    destruct (IH w1) as (w2 & R2 & K2); [now rewrite K1|].
    exists w2. split; [exact R2|]. now rewrite K2, K1, tRun_app.
Qed.

(** The per-node hooks, taken as replaces of a fixed list of routes. *)
Variable synchronizeToDatapath : nodeState -> M nodeState (K := Table) unit.
Variable hookRoutes : nodeState -> list Route.

Hypothesis hook_writes :
  forall ns u, exists u',
      synchronizeToDatapath ns u = Ret tt u' /\
      kernel u' = writes (hookRoutes ns) (kernel u).

Lemma forEach_hooks (ns : list nodeState) (w : World) :
  exists w',
    forEach (fun n => bind (emit (EvNodeSync n)) (fun _ => synchronizeToDatapath n)) ns w
    = Ret tt w' /\
    kernel w' = writes (flat_map hookRoutes ns) (kernel w).
Proof.
  revert w. induction ns as [|n ns IH]; intros w; cbn [forEach flat_map].
  - eexists. split; reflexivity.
  - unfold bind at 1. unfold bind at 1, emit.
    destruct (hook_writes n (mkWorld (kernel w) (trace w ++ [EvNodeSync n]) (logs w)))
      as (w1 & R & K1).
    rewrite R. destruct (IH w1) as (w2 & R2 & K2).
    exists w2. split; [exact R2|]. rewrite K2, K1. cbn [kernel].
    unfold writes. now rewrite fold_left_app.
Qed.

Local Abbreviation sync := (syncClusterRouting env synchronizeToDatapath).
Local Abbreviation passOps := (passOps env hookRoutes).

Lemma ensureFails_unchanged (l : Link) (n : IPNet) (t : Table) :
  tEnsureFails l n t = true -> tRun l [Ensure n] t = t.
Proof.
  unfold tEnsureFails, ensureFails. rewrite andb_true_iff, negb_true_iff.
  intros [F A]. rewrite tRun_ensure, F, <- replace_tRun.
  cbn [RouteReplace Table_Kernel]. now rewrite A.
Qed.

(** What a pass leaves in the table, by where it stops. *)
Lemma sync_table (cc : clusterConfiguation nodeState) (w : World) (l : Link) :
  LinkByName (HostDevice env) (kernel w) = inl l ->
  exists res w',
    sync cc w = Ret res w' /\
    ((tEnsureFails l (net4 env) (kernel w) = true /\ res <> None /\ kernel w' = kernel w) \/
     (tEnsureFails l (net6 env) (tRun l [Ensure (net4 env)] (kernel w)) = true /\
      res <> None /\ kernel w' = tRun l [Ensure (net4 env)] (kernel w)) \/
     (tEnsureFails l (net4 env) (kernel w) = false /\
      tEnsureFails l (net6 env) (tRun l [Ensure (net4 env)] (kernel w)) = false /\
      res = None /\ kernel w' = tRun l (passOps l cc) (kernel w))).
Proof.
  intros L. rewrite sync_unfold_link, L.
  destruct (replaceNexthopRoute_table l (net4 env)
              (mkWorld (kernel w) (trace w ++ [EvLinkByName nodeState (HostDevice env)]) (logs w)))
    as (r4 & w1 & R4 & K4 & F4).
  cbn [kernel] in K4, F4. fold (net4 env). rewrite R4.
  destruct r4 as [e4|].
  { eexists _, _. split; [reflexivity|]. left.
    destruct (tEnsureFails l (net4 env) (kernel w)) eqn:E4.
    - split; [reflexivity|]. split; [discriminate|].
      now rewrite K4, ensureFails_unchanged.
    - destruct F4 as [_ F4]. now specialize (F4 eq_refl). }
  destruct (replaceNexthopRoute_table l (net6 env) w1) as (r6 & w2 & R6 & K6 & F6).
  fold (net6 env). rewrite R6. rewrite K4 in F6.
  destruct r6 as [e6|].
  { eexists _, _. split; [reflexivity|]. right. left.
    destruct (tEnsureFails l (net6 env) (tRun l [Ensure (net4 env)] (kernel w))) eqn:E6.
    - split; [reflexivity|]. split; [discriminate|].
      rewrite K6, K4. now rewrite ensureFails_unchanged.
    - destruct F6 as [_ F6]. now specialize (F6 eq_refl). }
  destruct (forEach_hooks (nodes cc) w2) as (w3 & R3 & K3).
  unfold bind at 1. rewrite R3.
  assert (L3 : LinkByName (HostDevice env) (kernel w3) = inl l).
  { rewrite K3, (writes_tRun l), K6, K4. exact L. }
  assert (A : exists w4,
             (if negb (usePerNodeRoutes cc)
              then bind (replaceNodeRoute env (GetIPv4AllocRange env))
                        (fun _ => replaceNodeRoute env (GetIPv6AllocRange env))
              else ret tt) w3 = Ret tt w4 /\
             kernel w4 =
             tRun l (if negb (usePerNodeRoutes cc)
                     then nodeRouteOps env l (GetIPv4AllocRange env) ++
                          nodeRouteOps env l (GetIPv6AllocRange env)
                     else []) (kernel w3)).
  { destruct (negb (usePerNodeRoutes cc)).
    - destruct (replaceNodeRoute_table l (GetIPv4AllocRange env) w3 L3)
        as (wa & Ra & Ka).
      unfold bind. rewrite Ra.
      destruct (replaceNodeRoute_table l (GetIPv6AllocRange env) wa)
        as (wb & Rb & Kb); [now rewrite Ka|].
      exists wb. split; [exact Rb|]. now rewrite Kb, Ka, tRun_app.
    - eexists. split; [reflexivity|]. symmetry. apply tRun_nil. }
  destruct A as (w4 & R4' & K4').
  unfold bind at 1. rewrite R4'.
  destruct (forEach_replaceNodeRoute l (auxPrefixes cc) w4) as (w5 & R5 & K5);
    [now rewrite K4'|].
  unfold bind at 1. rewrite R5.
  eexists _, _. split; [reflexivity|]. right. right.
  split; [now apply F4|]. split; [now apply F6|]. split; [reflexivity|].
  rewrite K5, K4', K3, (writes_tRun l), K6, K4.
  unfold Pass.passOps, restOps.
  rewrite (tRun_cons l (Ensure (net4 env)) (Ensure (net6 env) :: _)).
  rewrite (tRun_cons l (Ensure (net6 env)) (map Put _ ++ _)).
  now rewrite !tRun_app.
Qed.

Lemma nodeRouteOps_In (l : Link) (ip : option IPNet) (o : op) :
  In o (nodeRouteOps env l ip) ->
  (o = Ensure (net4 env) \/ o = Ensure (net6 env)) \/
  (exists r, o = Put r /\ Scope r <> SCOPE_LINK).
Proof.
  unfold nodeRouteOps. destruct ip as [n|]; [|intros []].
  destruct (negb (isNil (To4 (IPNet_IP n)))); intros [<- | [<- | []]]; auto;
    right; eexists; (split; [reflexivity|]); cbn; discriminate.
Qed.


Lemma nets_differ (l : Link) :
  dstKey (nexthopFilter l (net4 env)) <> dstKey (nexthopFilter l (net6 env)).
Proof.
  unfold dstKey. cbn. intros E.
  apply (f_equal (fun o : option (bytes * (Z * Z)) =>
                    match o with Some (_, s) => s | None => (0, 0)%Z end)) in E.
  vm_compute in E. discriminate.
Qed.



End OnTable.


Lemma hook1_writes (ns : string) (u : World string (K := Table)) :
  exists u',
    Samples.hook1 ns u = Ret tt u' /\
    kernel u' = writes (Samples.hookRoutes1 ns) (kernel u).
Proof.
  unfold Samples.hook1, Samples.hookRoutes1, writes. run. cbn [fold_left].
  destruct (RouteReplace Samples.podRoute (kernel u)) as [k' e].
  eexists. split; reflexivity.
Qed.


End PassFacts.

(* ===================================================================== *)
(** ** More on [route.Equal], [route.String] and [ipFamily] *)
(* ===================================================================== *)

Module TextFacts.
Import GoNet Netlink Routing RouteText GoNetFacts EqualFacts.

(** X1: [route.Equal] is transitive: with reflexivity and symmetry it is an
    equivalence on routes. *)
Theorem route_Equal_trans (env : Env) (a b c : route) :
  route_Equal env a b = true -> route_Equal env b c = true -> route_Equal env a c = true.
Proof.
  rewrite !route_Equal_iff.
  intros (L1 & V1 & S1 & P1) (L2 & V2 & S2 & P2).
  repeat split; try congruence.
  destruct P1 as [[A B] | (x & y & A & B & T1)], P2 as [[B' C] | (y' & z & B' & C & T2)];
    try congruence.
  - now left.
  - right. exists x, z. repeat split; trivial.
    assert (y = y') by congruence. subst y'. congruence.
Qed.

Lemma route_Equal_trans_witness :
  route_Equal (Samples.env0 true false)
              (mkroute "cilium_host" (Some 0) Samples.router4 None)
              (mkroute "cilium_host" (Some 0) (Samples.ip4in6 x0a x00 x00 x01) (Some [])) = true.
Proof.
  apply (route_Equal_trans (Samples.env0 true false) _
           (mkroute "cilium_host" (Some 1) Samples.router4 None)); reflexivity.
Defined.

(** X2: two routes that are [Equal] print the same text, provided
    [IP.String] gives the same text to addresses with the same canonical
    form (as Go's does: a 4-byte address and its 16-byte form both print in
    dotted decimal, a nil and an empty address both print as nil). *)
Theorem route_String_of_Equal (env : Env) (r o : route) :
  (forall a b, canonical a = canonical b -> IP_String env a = IP_String env b) ->
  route_Equal env r o = true ->
  route_String env r = route_String env o.
Proof.
  intros Hs E. apply route_Equal_iff in E.
  destruct E as (L & V & S & P). unfold route_String.
  rewrite L, (Hs _ _ V), (Hs _ _ S).
  destruct P as [[-> ->] | (x & y & -> & -> & T)]; [reflexivity | now rewrite T].
Qed.

Lemma route_String_of_Equal_witness :
  route_String envHex (mkroute "cilium_host" (Some 0) Samples.router4 None)
  = route_String envHex
      (mkroute "cilium_host" (Some 1) (Samples.ip4in6 x0a x00 x00 x01) (Some [])).
Proof.
  apply (route_String_of_Equal envHex).
  - intros a b E. cbn. now rewrite E.
  - reflexivity.
Defined.

Lemma To4_nil_data (a b : IP) :
  len a = len b -> data a = data b -> isNil (To4 a) = isNil (To4 b).
Proof.
  intros L D. unfold To4. rewrite L, D.
  destruct (len b =? IPv4len) eqn:E4.
  - apply Nat.eqb_eq in E4.
    destruct a as [x|], b as [y|]; cbn in *; trivial; unfold IPv4len in *; lia.
  - reflexivity.
Qed.

Lemma To4_mapped (a b : IP) :
  len a = IPv4len -> len b = IPv6len -> data b = v4InV6Prefix ++ data a ->
  isNil (To4 a) = false /\ isNil (To4 b) = false.
Proof.
  intros La Lb D. unfold To4. rewrite La, Lb, D. cbn.
  destruct a; [split; reflexivity | discriminate].
Qed.

(** X3: [ipFamily] gives the same family to two addresses that are [Equal],
    whichever of the 4-byte and 16-byte forms each is in; a nil address has
    family IPv6. *)
Theorem ipFamily_Equal (a b : IP) :
  (IP_Equal a b = true -> ipFamily a = ipFamily b) /\ ipFamily None = FAMILY_V6.
Proof.
  split; [|reflexivity]. unfold ipFamily, IP_Equal. intros E.
  destruct (Nat.eqb_spec (len a) (len b)) as [L|L].
  - apply bytesEqual_eq in E. now rewrite (To4_nil_data a b L E).
  - destruct (Nat.eqb_spec (len a) IPv4len) as [A4|A4];
      destruct (Nat.eqb_spec (len b) IPv6len) as [B6|B6]; cbn [andb] in E.
    + apply andb_true_iff in E. destruct E as [E1 E2].
      apply bytesEqual_eq in E1, E2.
      assert (D : data b = v4InV6Prefix ++ data a).
      { rewrite <- (firstn_skipn 12 (data b)). congruence. }
      destruct (To4_mapped a b A4 B6 D) as [-> ->]. reflexivity.
    + destruct (Nat.eqb_spec (len a) IPv6len) as [A6|A6];
        destruct (Nat.eqb_spec (len b) IPv4len) as [B4|B4]; cbn [andb] in E;
        try discriminate. unfold IPv4len, IPv6len in *. lia.
    + destruct (Nat.eqb_spec (len a) IPv6len) as [A6|A6];
        destruct (Nat.eqb_spec (len b) IPv4len) as [B4|B4]; cbn [andb] in E;
        try discriminate. unfold IPv4len, IPv6len in *. lia.
    + destruct (Nat.eqb_spec (len a) IPv6len) as [A6|A6];
        destruct (Nat.eqb_spec (len b) IPv4len) as [B4|B4]; cbn [andb] in E;
        try discriminate.
      apply andb_true_iff in E. destruct E as [E1 E2].
      apply bytesEqual_eq in E1, E2.
      assert (D : data a = v4InV6Prefix ++ data b).
      { rewrite <- (firstn_skipn 12 (data a)). congruence. }
      destruct (To4_mapped b a B4 A6 D) as [-> ->]. reflexivity.
Qed.

Lemma ipFamily_Equal_witness :
  ipFamily Samples.router4 = ipFamily (Samples.ip4in6 x0a x00 x00 x01).
Proof.
  apply (proj1 (ipFamily_Equal Samples.router4 (Samples.ip4in6 x0a x00 x00 x01))).
  reflexivity.
Defined.

End TextFacts.

(* ===================================================================== *)
(** ** More on routing.go, for every kernel *)
(* ===================================================================== *)

Module CallFacts.
Import GoNet Netlink Routing MemKernel RouteText Pass GoNetFacts RoutingFacts.

Section WithKernel.

Variable nodeState : Type.
Context {K : Type} `{Kernel K}.
Variable env : Env.

Local Abbreviation World := (World nodeState (K := K)).

Local Abbreviation linked w :=
  (mkWorld (kernel w) (trace w ++ [EvLinkByName nodeState (HostDevice env)]) (logs w)).

(** *** [findRoute] *)

Lemma find_first {A} (f : A -> bool) (l : list A) (x : A) :
  find f l = Some x ->
  exists before after,
    l = before ++ x :: after /\ f x = true /\ forall e, In e before -> f e = false.
Proof.
  induction l as [|a l IH]; cbn; [discriminate|].
  destruct (f a) eqn:Fa.
  - intros E. inversion E; subst. exists [], l. repeat split; trivial. intros e [].
  - intros E. destruct (IH E) as (before & after & -> & Fx & Fb).
    exists (a :: before), after. repeat split; trivial.
    intros e [<- | I]; auto.
Qed.

(** X4: with a filter that has a destination, [findRoute] does not panic,
    lists the table once, leaves kernel and log alone, and what it returns
    is the first listed route that passes the test: every route listed
    before it fails it.  With a filter without destination it panics before
    any call to the kernel. *)
Theorem findRoute_first_match (l : Link) (route : Route) (fd : IPNet) (w : World) :
  Dst route = Some fd ->
  (exists found,
      findRoute l route w = Ret found (listed l fd w) /\
      forall r, found = Some r ->
                exists before after,
                  RouteList l (ipFamily (IPNet_IP fd)) (kernel w) = inl (before ++ r :: after) /\
                  matchesFilter route fd r = true /\
                  forall e, In e before -> matchesFilter route fd e = false) /\
  findRoute l (mkRoute (LinkIndex route) (Scope route) None (Src route) (Gw route)) w
  = Panic w.
Proof.
  intros D. split; [|reflexivity].
  rewrite (findRoute_unfold nodeState l route fd w D). eexists. split; [reflexivity|].
  intros r F. destruct (RouteList l (ipFamily (IPNet_IP fd)) (kernel w)) as [routes|e];
    [|discriminate].
  destruct (find_first _ _ _ F) as (before & after & -> & Fx & Fb).
  now exists before, after.
Qed.

(** *** [validateDirectL2Route] *)

(** X5: [validateDirectL2Route] never writes to the kernel or to the log;
    for a nil address it makes no call at all, otherwise exactly one route
    lookup, for that address. *)
Theorem validateDirectL2Route_effects (nodeIP : IP) (w : World) :
  exists res w',
    validateDirectL2Route env nodeIP w = Ret res w' /\
    kernel w' = kernel w /\ logs w' = logs w /\
    trace w' = trace w ++ (if isNil nodeIP then [] else [EvRouteGet nodeState nodeIP]).
Proof.
  destruct (validate_returns nodeState env nodeIP w) as (res & w' & V & Kw & Lw & T0 & T1).
  exists res, w'. repeat split; trivial.
  destruct nodeIP as [ip|]; cbn [isNil].
  - apply T1. discriminate.
  - rewrite app_nil_r. now apply T0.
Qed.

(** *** [generateRoute] *)

Lemma validate_ok (ip : IP) (r0 : Route) (rs : list Route) (w : World) :
  ip <> None -> RouteGet ip (kernel w) = inl (r0 :: rs) -> Gw r0 = None ->
  validateDirectL2Route env ip w
  = Ret None (mkWorld (kernel w) (trace w ++ [EvRouteGet nodeState ip]) (logs w)).
Proof.
  intros N G Gw0. unfold validateDirectL2Route.
  destruct ip as [b|]; [|now elim N]. cbn [isNil]. run. now rewrite G, Gw0.
Qed.

(** X6: when direct routing is enabled, the node is not the local node, its
    address for the prefix's family is known and the kernel's best route to
    it has no gateway, [generateRoute] returns the direct route: via the
    node's own address, with no link and no source. *)
Theorem generateRoute_direct (n : Node) (a : nat) (w : World) (r0 : Route) (rs : list Route) :
  directEnabled env n = true ->
  nodeAddr env n a <> None ->
  RouteGet (nodeAddr env n a) (kernel w) = inl (r0 :: rs) ->
  Gw r0 = None ->
  generateRoute env n (Some a) w
  = Ret (mkroute "" (Some a) (nodeAddr env n a) None)
        (mkWorld (kernel w) (trace w ++ [EvRouteGet nodeState (nodeAddr env n a)])
                 (logs w ++ [generated])).
Proof.
  intros D N G Gw0.
  rewrite (generateRoute_unfold nodeState env n a w None _ (validate_ok _ r0 rs w N G Gw0)).
  now rewrite D.
Qed.

(** X7: when direct routing is off (no routing configuration, the flag
    unset, or the node is the local node), [generateRoute] makes no call to
    the kernel and returns the per-node route if per-node routes are on or
    the node is local, and otherwise the route with only the prefix set. *)
Theorem generateRoute_without_direct (n : Node) (a : nat) (w : World) :
  directEnabled env n = false ->
  generateRoute env n (Some a) w
  = Ret (fallThrough env n a) (mkWorld (kernel w) (trace w) (logs w ++ [generated])) /\
  (cluster_usePerNodeRoutes (GetLocalNode env) = false -> Node_IsLocalNode n = false ->
   fallThrough env n a = mkroute "" (Some a) None None) /\
  (cluster_usePerNodeRoutes (GetLocalNode env) = true ->
   fallThrough env n a = mkroute (HostDevice env) (Some a) (routerAddr env a) (sourceAddr env a)).
Proof.
  intros D.
  destruct (validate_returns nodeState env (nodeAddr env n a) w) as (res & w1 & V & _).
  rewrite (generateRoute_unfold nodeState env n a w res w1 V), D.
  split; [reflexivity|]. unfold fallThrough. split.
  - now intros -> ->.
  - now intros ->.
Qed.

(** X8: on a non-nil prefix [generateRoute] returns, never changes the
    kernel, and calls it at most once: one route lookup for the node's
    address, made exactly when direct routing is enabled for the node and
    that address is known.  On a nil prefix it panics at once. *)
Theorem generateRoute_reads_only (n : Node) (w : World) :
  generateRoute env n None w = Panic w /\
  forall a,
    exists r w',
      generateRoute env n (Some a) w = Ret r w' /\
      kernel w' = kernel w /\
      trace w' = trace w ++
                 (if directEnabled env n && negb (isNil (nodeAddr env n a))
                  then [EvRouteGet nodeState (nodeAddr env n a)] else []).
Proof.
  split; [reflexivity|]. intros a.
  destruct (validate_returns nodeState env (nodeAddr env n a) w)
    as (res & w1 & V & Kw & _ & T0 & T1).
  rewrite (generateRoute_unfold nodeState env n a w res w1 V).
  assert (T : trace w1 = trace w ++ (if negb (isNil (nodeAddr env n a))
                                     then [EvRouteGet nodeState (nodeAddr env n a)] else [])).
  { destruct (nodeAddr env n a) as [ip|]; cbn [isNil negb].
    - apply T1. discriminate.
    - rewrite app_nil_r. now apply T0. }
  destruct (directEnabled env n); cbn [andb].
  - destruct res; eexists _, _; (split; [reflexivity|]); cbn [kernel trace]; auto.
  - eexists _, _. split; [reflexivity|]. cbn [kernel trace]. now rewrite app_nil_r.
Qed.

End WithKernel.

Lemma findRoute_first_match_witness :
  exists found,
    findRoute Samples.host Samples.nexthop4
              (Samples.world0 (Samples.table [Samples.nexthop4_gw; Samples.nexthop4]
                                             Samples.accept_all))
    = Ret found (listed Samples.host Samples.routerNet4
                        (Samples.world0 (Samples.table [Samples.nexthop4_gw; Samples.nexthop4]
                                                       Samples.accept_all))).
Proof.
  destruct (findRoute_first_match string Samples.host Samples.nexthop4 Samples.routerNet4
              (Samples.world0 (Samples.table [Samples.nexthop4_gw; Samples.nexthop4]
                                             Samples.accept_all)) eq_refl)
    as [(found & F & _) _].
  now exists found.
Defined.

Lemma generateRoute_direct_witness :
  generateRoute (Samples.env0 true false) Samples.remoteNode (Some 2)
                (Samples.world0 (Samples.table [Samples.connected] Samples.accept_all))
  = Ret (mkroute "" (Some 2) (Samples.ip4 x0a x00 x01 x05) None)
        (mkWorld (Samples.table [Samples.connected] Samples.accept_all)
                 ([] ++ [EvRouteGet string (Samples.ip4 x0a x00 x01 x05)])
                 ([] ++ [generated])).
Proof.
  apply (generateRoute_direct string (Samples.env0 true false) Samples.remoteNode 2
           (Samples.world0 (Samples.table [Samples.connected] Samples.accept_all))
           Samples.connected []).
  - reflexivity.
  - discriminate.
  - reflexivity.
  - reflexivity.
Defined.

Lemma generateRoute_without_direct_witness :
  generateRoute (Samples.env0 false false) Samples.remoteNode (Some 2)
                (Samples.world0 (Samples.table [Samples.connected] Samples.accept_all))
  = Ret (fallThrough (Samples.env0 false false) Samples.remoteNode 2)
        (mkWorld (Samples.table [Samples.connected] Samples.accept_all) [] ([] ++ [generated])).
Proof.
  apply (generateRoute_without_direct string (Samples.env0 false false) Samples.remoteNode 2
           (Samples.world0 (Samples.table [Samples.connected] Samples.accept_all))).
  reflexivity.
Defined.

End CallFacts.

(* ===================================================================== *)
(** ** More on routing.go: writes and the pass, for every kernel *)
(* ===================================================================== *)

Module WriteFacts.
Import GoNet Netlink Routing MemKernel RouteText Pass GoNetFacts RoutingFacts.

Section WithKernel.

Variable nodeState : Type.
Context {K : Type} `{Kernel K}.
Variable env : Env.

Local Abbreviation World := (World nodeState (K := K)).

Local Abbreviation linked w :=
  (mkWorld (kernel w) (trace w ++ [EvLinkByName nodeState (HostDevice env)]) (logs w)).

(** *** [getNetlinkRoute], [add], [delete] *)

Lemma getNetlinkRoute_unfold (r : route) (w : World) :
  getNetlinkRoute env r w =
  if String.eqb (link r) "" then Ret (inl (netlinkRoute env 0 r)) w
  else match LinkByName (HostDevice env) (kernel w) with
       | inl l => Ret (inl (netlinkRoute env (Link_Index l) r)) (linked w)
       | inr e => Ret (inr e) (linked w)
       end.
Proof.
  unfold getNetlinkRoute, netlinkRoute, deref.
  assert (S : forall d g,
             (if negb (isNil (source r))
              then mkRoute 0 SCOPE_UNIVERSE d (source r) g
              else mkRoute 0 SCOPE_UNIVERSE d None g)
             = mkRoute 0 SCOPE_UNIVERSE d (source r) g).
  { intros d g. now destruct (source r). }
  cbn [LinkIndex Scope Dst Src Gw]. rewrite S. cbn [Scope Dst Src Gw].
  destruct (String.eqb (link r) ""); cbn [negb]; [reflexivity|].
  run. now destruct (LinkByName (HostDevice env) (kernel w)).
Qed.

(** X9: [getNetlinkRoute] copies prefix, via and source into the netlink
    route (a nil source stays nil).  With an empty link it asks the kernel
    nothing and leaves the device index 0; with any non-empty link it looks
    up [HostDevice], not the device the link names, and takes its index, or
    returns the lookup's error. *)
Theorem getNetlinkRoute_spec (r : route) (w : World) :
  (link r = ""%string ->
   getNetlinkRoute env r w = Ret (inl (netlinkRoute env 0 r)) w) /\
  (link r <> ""%string ->
   forall l, LinkByName (HostDevice env) (kernel w) = inl l ->
             getNetlinkRoute env r w
             = Ret (inl (netlinkRoute env (Link_Index l) r)) (linked w)) /\
  (link r <> ""%string ->
   forall e, LinkByName (HostDevice env) (kernel w) = inr e ->
             getNetlinkRoute env r w = Ret (inr e) (linked w)).
Proof.
  rewrite getNetlinkRoute_unfold. repeat split.
  - intros ->. reflexivity.
  - intros N l ->. apply String.eqb_neq in N. now rewrite N.
  - intros N e ->. apply String.eqb_neq in N. now rewrite N.
Qed.

(** X10: when the device lookup fails, [add] and [delete] return the
    lookup's error and send no route to the kernel: after the lookup the
    trace, the kernel and the log are as they were. *)
Theorem route_add_delete_device_failure (r : route) (w : World) (e : error) :
  link r <> ""%string ->
  LinkByName (HostDevice env) (kernel w) = inr e ->
  route_add env r w = Ret (Some e) (linked w) /\
  route_delete env r w = Ret (Some e) (linked w).
Proof.
  intros N L. apply String.eqb_neq in N.
  unfold route_add, route_delete, bind. now rewrite getNetlinkRoute_unfold, N, L.
Qed.

(** *** [replaceNodeRoute] *)

(** X11: [replaceNodeRoute] does nothing at all for a nil prefix, and when
    the device lookup fails it logs the error and sends no route to the
    kernel. *)
Theorem replaceNodeRoute_edges (w : World) :
  replaceNodeRoute env None w = Ret tt w /\
  forall n e,
    LinkByName (HostDevice env) (kernel w) = inr e ->
    replaceNodeRoute env (Some n) w
    = Ret tt (mkWorld (kernel w) (trace w ++ [EvLinkByName nodeState (HostDevice env)])
                      (logs w ++ [mkLog Error "Unable to lookup interface" (Some e)])).
Proof.
  split; [reflexivity|]. intros n e L. unfold replaceNodeRoute. run. now rewrite L.
Qed.

Lemma replaceNodeRoute_body (l : Link) (n net : IPNet) (via local : IP) (u : World) :
  exists w' mid,
    bind (replaceNexthopRoute l (Some net))
         (fun e =>
            bind (match e with
                  | Some err => log Error "Unable to add nexthop route" (Some err)
                  | None => ret tt
                  end)
                 (fun _ =>
                    bind (netlink_RouteReplace
                            (mkRoute (Link_Index l) SCOPE_UNIVERSE (Some n) local via))
                         (fun e0 =>
                            match e0 with
                            | Some err => log Error "Unable to add node route" (Some err)
                            | None => log Debug "Replaced node route" None
                            end))) u = Ret tt w' /\
    trace w' = trace u ++ [EvRouteList nodeState (Link_Index l) (ipFamily (IPNet_IP net))]
                       ++ mid
                       ++ [EvRouteReplace nodeState
                             (mkRoute (Link_Index l) SCOPE_UNIVERSE (Some n) local via)] /\
    (mid = [] \/ mid = [EvRouteReplace nodeState (nexthopFilter l net)]).
Proof.
  unfold bind at 1. rewrite replaceNexthopRoute_unfold.
  destruct (match RouteList l (ipFamily (IPNet_IP net)) (kernel u) with
            | inl routes => find (matchesFilter (nexthopFilter l net) net) routes
            | inr _ => None
            end) as [r|].
  - run. unfold listed. cbn [kernel trace logs].
    destruct (RouteReplace _ (kernel u)) as [k' [err|]];
      eexists _, []; (split; [reflexivity|]); cbn [trace]; rewrite <- !app_assoc; auto.
  - cbv zeta. unfold listed. cbn [kernel trace logs].
    destruct (RouteReplace (nexthopFilter l net) (kernel u)) as [k1 [err1|]]; run;
      (destruct (RouteReplace _ k1) as [k' [err|]];
       eexists _, [_]; (split; [reflexivity|]); cbn [trace]; rewrite <- !app_assoc; auto).
Qed.

(** X12: once the device is found, [replaceNodeRoute] always sends the
    replace of the prefix's own route to the kernel, as its last call: after
    the device lookup and the listing for the nexthop route comes at most
    one replace of the nexthop route, and then the replace of the route to
    the prefix, whether or not the nexthop route could be installed. *)
Theorem replaceNodeRoute_best_effort (n : IPNet) (l : Link) (net : IPNet) (R : Route)
        (w : World) :
  LinkByName (HostDevice env) (kernel w) = inl l ->
  nodeRouteOps env l (Some n) = [Ensure net; Put R] ->
  exists w' mid,
    replaceNodeRoute env (Some n) w = Ret tt w' /\
    trace w' = trace w ++ [EvLinkByName nodeState (HostDevice env);
                           EvRouteList nodeState (Link_Index l) (ipFamily (IPNet_IP net))]
                       ++ mid ++ [EvRouteReplace nodeState R] /\
    (mid = [] \/ mid = [EvRouteReplace nodeState (nexthopFilter l net)]).
Proof.
  intros L O. unfold replaceNodeRoute. unfold bind at 1. run. rewrite L.
  unfold nodeRouteOps, net4, net6 in O.
  destruct (negb (isNil (To4 (IPNet_IP n)))); inversion O; subst net R;
    match goal with
    | |- context [replaceNexthopRoute l (Some ?nt)] =>
        match goal with
        | |- context [mkRoute (Link_Index l) SCOPE_UNIVERSE (Some n) ?lo ?vi] =>
            destruct (replaceNodeRoute_body l n nt vi lo (linked w))
              as (w' & mid & E & T & M)
        end
    end;
    exists w', mid; (split; [exact E|]); cbn [trace] in T; rewrite T, <- !app_assoc; auto.
Qed.

Lemma replaceNodeRoute_returns (ip : option IPNet) (w : World) :
  exists w', replaceNodeRoute env ip w = Ret tt w'.
Proof.
  destruct ip as [n|]; [|eexists; reflexivity].
  destruct (LinkByName (HostDevice env) (kernel w)) as [l|e] eqn:L.
  - unfold replaceNodeRoute. unfold bind at 1. run. rewrite L.
    destruct (negb (isNil (To4 (IPNet_IP n))));
      match goal with
      | |- context [replaceNexthopRoute l (Some ?nt)] =>
          match goal with
          | |- context [mkRoute (Link_Index l) SCOPE_UNIVERSE (Some n) ?lo ?vi] =>
              destruct (replaceNodeRoute_body l n nt vi lo (linked w)) as (w' & _ & E & _)
          end
      end; exists w'; exact E.
  - eexists. exact (proj2 (replaceNodeRoute_edges w) n e L).
Qed.

Lemma forEach_returns {A} (f : A -> M nodeState (K := K) unit) (xs : list A) (w : World) :
  (forall x u, exists u', f x u = Ret tt u') ->
  exists w', forEach f xs w = Ret tt w'.
Proof.
  intros F. revert w. induction xs as [|x xs IH]; intros w; cbn [forEach].
  - eexists. reflexivity.
  - destruct (F x w) as (u & E). unfold bind. rewrite E. apply IH.
Qed.

(** *** [syncClusterRouting] *)

Variable synchronizeToDatapath : nodeState -> M nodeState (K := K) unit.

Local Abbreviation sync := (syncClusterRouting env synchronizeToDatapath).
Local Abbreviation net4 := (mkIPNet (GetInternalIPv4 env) (CIDRMask 32 32)).
Local Abbreviation net6 := (mkIPNet (GetIPv6Router env) (CIDRMask 128 128)).

(** X13: when the host device cannot be found, [syncClusterRouting] returns
    the lookup's error at once: no table is listed, no route is replaced, no
    node is synchronized, nothing is logged. *)
Theorem syncClusterRouting_device_failure
        (cc : clusterConfiguation nodeState) (w : World) (e : error) :
  LinkByName (HostDevice env) (kernel w) = inr e ->
  sync cc w = Ret (Some e) (linked w).
Proof. intros L. now rewrite sync_unfold_link, L. Qed.

(** X14: if the per-node hooks return, [syncClusterRouting] returns, and it
    returns nil exactly when the device is found and both nexthop routes are
    installed or found: a fallback or auxiliary route that cannot be written
    is only logged and never makes the pass fail. *)
Theorem syncClusterRouting_result (cc : clusterConfiguation nodeState) (w : World) :
  (forall ns u, exists u', synchronizeToDatapath ns u = Ret tt u') ->
  exists res w',
    sync cc w = Ret res w' /\
    (res = None <->
     exists l w1 w2,
       LinkByName (HostDevice env) (kernel w) = inl l /\
       replaceNexthopRoute l (Some net4) (linked w) = Ret None w1 /\
       replaceNexthopRoute l (Some net6) w1 = Ret None w2).
Proof.
  intros Hk. rewrite sync_unfold_link.
  destruct (LinkByName (HostDevice env) (kernel w)) as [l|e] eqn:L.
  2:{ eexists _, _. split; [reflexivity|]. split; [discriminate|].
      intros (l & w1 & w2 & C & _). discriminate. }
  assert (R : forall net (u : World),
             exists res u', replaceNexthopRoute l (Some net) u = Ret res u').
  { intros net u. rewrite replaceNexthopRoute_unfold.
    destruct (match RouteList l (ipFamily (IPNet_IP net)) (kernel u) with
              | inl routes => find (matchesFilter (nexthopFilter l net) net) routes
              | inr _ => None
              end); [eexists _, _; reflexivity|].
    cbv zeta. destruct (RouteReplace _ (kernel u)) as [k' [err|]]; eexists _, _; reflexivity. }
  destruct (R net4 (linked w)) as (r4 & w1 & E4). rewrite E4.
  destruct r4 as [e4|].
  { eexists _, _. split; [reflexivity|]. split; [discriminate|].
    intros (l' & u1 & u2 & C & C4 & _). inversion C; subst l'. congruence. }
  destruct (R net6 w1) as (r6 & w2 & E6). rewrite E6.
  destruct r6 as [e6|].
  { eexists _, _. split; [reflexivity|]. split; [discriminate|].
    intros (l' & u1 & u2 & C & C4 & C6). inversion C; subst l'.
    rewrite E4 in C4. inversion C4; subst u1. congruence. }
  destruct (forEach_returns
              (fun ns => bind (emit (EvNodeSync ns)) (fun _ => synchronizeToDatapath ns))
              (nodes cc) w2) as (w3 & E3).
  { intros ns u. unfold bind, emit. apply Hk. }
  unfold bind at 1. rewrite E3.
  assert (A : exists w4,
             (if negb (usePerNodeRoutes cc)
              then bind (replaceNodeRoute env (GetIPv4AllocRange env))
                        (fun _ => replaceNodeRoute env (GetIPv6AllocRange env))
              else ret tt) w3 = Ret tt w4).
  { destruct (negb (usePerNodeRoutes cc)); [|eexists; reflexivity].
    destruct (replaceNodeRoute_returns (GetIPv4AllocRange env) w3) as (wa & Ea).
    unfold bind. rewrite Ea. apply replaceNodeRoute_returns. }
  destruct A as (w4 & E4'). unfold bind at 1. rewrite E4'.
  destruct (forEach_returns (replaceNodeRoute env) (auxPrefixes cc) w4) as (w5 & E5).
  { intros ip u. apply replaceNodeRoute_returns. }
  unfold bind at 1. rewrite E5.
  eexists _, _. split; [reflexivity|]. split; [|reflexivity].
  intros _. now exists l, w1, w2.
Qed.

End WithKernel.

End WriteFacts.

(* ===================================================================== *)
(** ** More on routing.go, on the in-memory table *)
(* ===================================================================== *)

Module TableFacts.
Import GoNet Netlink Routing MemKernel RouteText Pass.
Import GoNetFacts RoutingFacts PassFacts WriteFacts.

Lemma hit_self (l : Link) (n : IPNet) : hit l n (nexthopFilter l n) = true.
Proof.
  unfold hit, matchesFilter, routeMatches, route_family, ipFamily, nexthopFilter.
  cbn [LinkIndex Scope Dst Gw].
  destruct (Mask_Size (IPNet_Mask n)) as [a b].
  rewrite !Z.eqb_refl, IP_Equal_refl. cbn. now destruct (isNil (To4 (IPNet_IP n))).
Qed.

Lemma existsb_upsert_self (f : Route -> bool) (r : Route) (X : list Route) :
  f r = true -> existsb f (upsert r X) = true.
Proof.
  intros F. induction X as [|e X IH]; cbn.
  - now rewrite F.
  - destruct (same_dst e r); cbn; [now rewrite F | rewrite IH; apply orb_true_r].
Qed.

Lemma remove_upsert (r : Route) (X : list Route) :
  present r X = false -> remove_dst r (upsert r X) = Some X.
Proof.
  unfold present. induction X as [|e X IH]; cbn.
  - now rewrite same_dst_refl.
  - intros P. apply orb_false_iff in P. destruct P as [E P].
    rewrite E. cbn. rewrite E, (IH P). reflexivity.
Qed.

Section OnTable.

Variable nodeState : Type.
Variable env : Env.

Local Abbreviation World := (World nodeState (K := Table)).

(** *** [replaceNexthopRoute], twice *)

(** X15: on a table that can be listed, after a [replaceNexthopRoute] that
    returned nil a second call finds the route: it lists the table, sends
    no replace and leaves the table as it is. *)
Theorem replaceNexthopRoute_twice (l : Link) (n : IPNet) (w w1 : World) :
  tb_list_fails (kernel w) = false ->
  replaceNexthopRoute l (Some n) w = Ret None w1 ->
  replaceNexthopRoute l (Some n) w1 = Ret None (listed l n w1).
Proof.
  intros Lf E1.
  destruct (replaceNexthopRoute_table nodeState l n w) as (res & w1' & E & K1 & F).
  rewrite E1 in E. inversion E; subst res w1'. clear E.
  destruct F as [F _]. specialize (F eq_refl).
  assert (Fd : found (tb_list_fails (kernel w1)) l n (tb_routes (kernel w1)) = true).
  { rewrite K1, tRun_ensure.
    destruct (found (tb_list_fails (kernel w)) l n (tb_routes (kernel w))) eqn:F0; trivial.
    unfold tEnsureFails, ensureFails in F. rewrite F0 in F. cbn [negb andb] in F.
    unfold tRun, onRoutes, found. cbn. unfold write. rewrite F, Lf. cbn.
    apply existsb_upsert_self. apply hit_self. }
  rewrite replaceNexthopRoute_unfold.
  destruct (match RouteList l (ipFamily (IPNet_IP n)) (kernel w1) with
            | inl routes => find (matchesFilter (nexthopFilter l n) n) routes
            | inr _ => None
            end) eqn:Lk; [reflexivity|].
  apply lookup_found in Lk. congruence.
Qed.

(** *** [add] and [delete] *)

Local Abbreviation resolved r t :=
  (if String.eqb (link r) ""
   then inl (netlinkRoute env 0 r)
   else match LinkByName (HostDevice env) t with
        | inl l => inl (netlinkRoute env (Link_Index l) r)
        | inr e => inr e
        end).

Lemma route_add_table (r : route) (w : World) :
  exists w1,
    route_add env r w
    = Ret (match resolved r (kernel w) with
           | inl nr => snd (RouteReplace nr (kernel w))
           | inr e => Some e
           end) w1 /\
    kernel w1 = match resolved r (kernel w) with
                | inl nr => fst (RouteReplace nr (kernel w))
                | inr e => kernel w
                end.
Proof.
  unfold route_add. unfold bind at 1. rewrite getNetlinkRoute_unfold.
  destruct (String.eqb (link r) "").
  - run. destruct (RouteReplace (netlinkRoute env 0 r) (kernel w)) as [k' [e|]];
      eexists; split; reflexivity.
  - destruct (LinkByName (HostDevice env) (kernel w)) as [l|e].
    + run. destruct (RouteReplace (netlinkRoute env (Link_Index l) r) (kernel w)) as [k' [e|]];
        eexists; split; reflexivity.
    + eexists; split; reflexivity.
Qed.

Lemma route_delete_table (r : route) (w : World) :
  exists w1,
    route_delete env r w
    = Ret (match resolved r (kernel w) with
           | inl nr => snd (RouteDel nr (kernel w))
           | inr e => Some e
           end) w1 /\
    kernel w1 = match resolved r (kernel w) with
                | inl nr => fst (RouteDel nr (kernel w))
                | inr e => kernel w
                end.
Proof.
  unfold route_delete. unfold bind at 1. rewrite getNetlinkRoute_unfold.
  destruct (String.eqb (link r) "").
  - run. destruct (RouteDel (netlinkRoute env 0 r) (kernel w)) as [k' [e|]];
      eexists; split; reflexivity.
  - destruct (LinkByName (HostDevice env) (kernel w)) as [l|e].
    + run. destruct (RouteDel (netlinkRoute env (Link_Index l) r) (kernel w)) as [k' [e|]];
        eexists; split; reflexivity.
    + eexists; split; reflexivity.
Qed.

(** What an [add] that returned nil did to the table. *)
Lemma route_add_done (r : route) (w w1 : World) :
  route_add env r w = Ret None w1 ->
  exists nr,
    resolved r (kernel w) = inl nr /\
    dstKey nr = dstKey (netlinkRoute env 0 r) /\
    tb_refuse (kernel w) nr = false /\
    kernel w1 = onRoutes (upsert nr) (kernel w).
Proof.
  intros E. destruct (route_add_table r w) as (w1' & E' & K1).
  rewrite E in E'. clear E.
  assert (D : forall idx, dstKey (netlinkRoute env idx r) = dstKey (netlinkRoute env 0 r))
    by reflexivity.
  destruct (String.eqb (link r) "");
    [|destruct (LinkByName (HostDevice env) (kernel w)) as [l|e]];
    try discriminate;
    (eexists; split; [reflexivity|]; split; [apply D|]);
    cbn [RouteReplace Table_Kernel] in E', K1;
    match type of E' with
    | context [tb_refuse ?t ?x] => destruct (tb_refuse t x) eqn:A; [discriminate|]
    end; inversion E'; subst w1'; split; trivial.
Qed.

(** X16: on the table, a second [add] of a route whose first [add] returned
    nil returns nil again and leaves the table as the first left it. *)
Theorem route_add_twice (r : route) (w w1 : World) :
  route_add env r w = Ret None w1 ->
  exists w2, route_add env r w1 = Ret None w2 /\ kernel w2 = kernel w1.
Proof.
  intros E. destruct (route_add_done r w w1 E) as (nr & Rs & _ & A & K1).
  destruct (route_add_table r w1) as (w2 & E2 & K2).
  assert (Rs1 : resolved r (kernel w1) = inl nr) by (rewrite K1; exact Rs).
  rewrite Rs1 in E2, K2. exists w2.
  rewrite E2, K2, K1. cbn. rewrite A. cbn. now rewrite upsert_idem.
Qed.

(** X17: on the table, when no route to the prefix of [r] was installed, an
    [add] that returned nil followed by [delete] returns nil and leaves the
    table exactly as it was before the [add]. *)
Theorem route_add_delete (r : route) (w w1 : World) :
  present (netlinkRoute env 0 r) (tb_routes (kernel w)) = false ->
  route_add env r w = Ret None w1 ->
  exists w2, route_delete env r w1 = Ret None w2 /\ kernel w2 = kernel w.
Proof.
  intros P E. destruct (route_add_done r w w1 E) as (nr & Rs & D & A & K1).
  destruct (route_delete_table r w1) as (w2 & E2 & K2).
  assert (Rs1 : resolved r (kernel w1) = inl nr) by (rewrite K1; exact Rs).
  rewrite Rs1 in E2, K2. exists w2.
  rewrite <- (present_key nr _ _ D) in P.
  rewrite E2, K2, K1. cbn. rewrite (remove_upsert nr _ P). cbn.
  split; [reflexivity | now destruct (kernel w)].
Qed.

(** *** [replaceNodeRoute] over a list of prefixes *)

Lemma nodeOps_wellFormed (l : Link) (ips : list (option IPNet)) :
  wellFormed l (flat_map (nodeRouteOps env l) ips).
Proof.
  assert (C : forall o, In o (flat_map (nodeRouteOps env l) ips) ->
                        (o = Ensure (net4 env) \/ o = Ensure (net6 env)) \/
                        (exists r, o = Put r /\ Scope r <> SCOPE_LINK)).
  { intros o I. apply in_flat_map in I. destruct I as (ip & _ & I).
    exact (nodeRouteOps_In env l ip o I). }
  split.
  - intros r I. destruct (C _ I) as [[E | E] | (r' & E & Sc)]; try discriminate.
    now inversion E.
  - intros n n' I I'.
    destruct (C _ I) as [[E | E] | (r & E & _)]; try discriminate;
      destruct (C _ I') as [[E' | E'] | (r' & E' & _)]; try discriminate;
      inversion E; inversion E'; subst; auto; right.
    + apply nets_differ.
    + intros D. symmetry in D. revert D. apply nets_differ.
Qed.

Lemma forEach_no_device (ips : list (option IPNet)) (w : World) (e : error) :
  LinkByName (HostDevice env) (kernel w) = inr e ->
  exists w', forEach (replaceNodeRoute env) ips w = Ret tt w' /\ kernel w' = kernel w.
Proof.
  revert w. induction ips as [|ip ips IH]; intros w L; cbn [forEach].
  - eexists. split; reflexivity.
  - assert (S : exists w1, replaceNodeRoute env ip w = Ret tt w1 /\ kernel w1 = kernel w).
    { destruct ip as [n|]; [|eexists; split; reflexivity].
      unfold replaceNodeRoute. run. rewrite L. eexists; split; reflexivity. }
    destruct S as (w1 & E1 & K1). unfold bind. rewrite E1.
    destruct (IH w1) as (w' & E' & K'); [now rewrite K1|].
    exists w'. split; [exact E'|]. congruence.
Qed.

(** X18: on the table, running [replaceNodeRoute] over a list of prefixes a
    second time leaves the table exactly as the first run left it, whatever
    the kernel refused and whether or not the device exists. *)
Theorem replaceNodeRoute_list_twice (ips : list (option IPNet)) (w w1 w2 : World) :
  forEach (replaceNodeRoute env) ips w = Ret tt w1 ->
  forEach (replaceNodeRoute env) ips w1 = Ret tt w2 ->
  kernel w2 = kernel w1.
Proof.
  intros E1 E2.
  destruct (LinkByName (HostDevice env) (kernel w)) as [l|e] eqn:L.
  - destruct (forEach_replaceNodeRoute nodeState env l ips w L) as (u1 & F1 & K1).
    rewrite E1 in F1. inversion F1; subst u1.
    destruct (forEach_replaceNodeRoute nodeState env l ips w1) as (u2 & F2 & K2);
      [now rewrite K1|].
    rewrite E2 in F2. inversion F2; subst u2.
    rewrite K2, K1. apply tRun_twice. apply nodeOps_wellFormed.
  - destruct (forEach_no_device ips w e L) as (u1 & F1 & K1).
    rewrite E1 in F1. inversion F1; subst u1.
    destruct (forEach_no_device ips w1 e) as (u2 & F2 & K2); [now rewrite K1|].
    rewrite E2 in F2. inversion F2; subst u2. exact K2.
Qed.

(** *** Auxiliary prefixes in a pass *)

Variable synchronizeToDatapath : nodeState -> M nodeState (K := Table) unit.
Variable hookRoutes : nodeState -> list Route.

Hypothesis hook_writes :
  forall ns u, exists u',
      synchronizeToDatapath ns u = Ret tt u' /\
      kernel u' = writes (hookRoutes ns) (kernel u).

(** X19: on the table, with hooks that only replace routes, after a pass
    that returned nil every auxiliary prefix whose route the kernel accepts
    has a route to its destination in the table, whatever happened to the
    routes of the other prefixes. *)
Theorem auxiliary_prefix_installed
        (cc : clusterConfiguation nodeState) (w w' : World)
        (l : Link) (n net : IPNet) (R : Route) :
  syncClusterRouting env synchronizeToDatapath cc w = Ret None w' ->
  LinkByName (HostDevice env) (kernel w) = inl l ->
  In (Some n) (auxPrefixes cc) ->
  nodeRouteOps env l (Some n) = [Ensure net; Put R] ->
  tb_refuse (kernel w) R = false ->
  present R (tb_routes (kernel w')) = true.
Proof.
  intros E L I O A.
  destruct (sync_table nodeState env synchronizeToDatapath hookRoutes hook_writes cc w l L)
    as (res & u & E' & C).
  rewrite E in E'. inversion E'; subst res u. clear E'.
  destruct C as [(_ & C & _) | [(_ & C & _) | (_ & _ & _ & Kw)]]; try now elim C.
  rewrite Kw. unfold tRun, onRoutes. cbn [tb_routes].
  apply (covered_run _ _ l _ _ (Put R)); [|exact A].
  unfold passOps, restOps. right. right.
  rewrite !in_app_iff. right. right.
  apply in_flat_map. exists (Some n). split; [exact I|]. rewrite O. right. now left.
Qed.

End OnTable.

(** *** Examples *)

Lemma replaceNexthopRoute_twice_witness :
  exists w1,
    replaceNexthopRoute Samples.host (Some Samples.routerNet4)
                        (Samples.world0 (Samples.table [] Samples.accept_all)) = Ret None w1 /\
    replaceNexthopRoute Samples.host (Some Samples.routerNet4) w1
    = Ret None (listed Samples.host Samples.routerNet4 w1).
Proof.
  eexists. split; [vm_compute; reflexivity|].
  apply (replaceNexthopRoute_twice string Samples.host Samples.routerNet4
           (Samples.world0 (Samples.table [] Samples.accept_all))); reflexivity.
Defined.

Lemma route_add_twice_witness :
  exists w1 w2,
    route_add (Samples.env0 true false) hostRoute
              (Samples.world0 (Samples.table [] Samples.accept_all)) = Ret None w1 /\
    route_add (Samples.env0 true false) hostRoute w1 = Ret None w2 /\
    kernel w2 = kernel w1.
Proof.
  eexists.
  destruct (route_add_twice string (Samples.env0 true false) hostRoute
              (Samples.world0 (Samples.table [] Samples.accept_all)) _ eq_refl)
    as (w2 & E & Kw).
  exists w2. split; [reflexivity|]. split; assumption.
Defined.

Lemma route_add_delete_witness :
  exists w1 w2,
    route_add (Samples.env0 true false) plainRoute
              (Samples.world0 (Samples.table [Samples.nexthop4] Samples.accept_all))
    = Ret None w1 /\
    route_delete (Samples.env0 true false) plainRoute w1 = Ret None w2 /\
    kernel w2 = Samples.table [Samples.nexthop4] Samples.accept_all.
Proof.
  eexists.
  destruct (route_add_delete string (Samples.env0 true false) plainRoute
              (Samples.world0 (Samples.table [Samples.nexthop4] Samples.accept_all)) _
              eq_refl eq_refl)
    as (w2 & E & Kw).
  exists w2. split; [reflexivity|]. split; assumption.
Defined.

Lemma replaceNodeRoute_list_twice_witness :
  exists w1 w2,
    forEach (replaceNodeRoute (Samples.env0 true false))
            [Some Samples.pod24; None; Some Samples.routerNet4]
            (Samples.world0 (Samples.table [] Samples.refuse_link4)) = Ret tt w1 /\
    forEach (replaceNodeRoute (Samples.env0 true false))
            [Some Samples.pod24; None; Some Samples.routerNet4] w1 = Ret tt w2 /\
    kernel w2 = kernel w1.
Proof.
  eexists _, _. split; [vm_compute; reflexivity|]. split; [vm_compute; reflexivity|].
  eapply (replaceNodeRoute_list_twice string (Samples.env0 true false)
            [Some Samples.pod24; None; Some Samples.routerNet4]
            (Samples.world0 (Samples.table [] Samples.refuse_link4)));
    vm_compute; reflexivity.
Defined.

(** The kernel refuses the route to the first auxiliary prefix; the second
    is installed all the same. *)
Lemma auxiliary_prefix_installed_witness :
  exists w',
    syncClusterRouting (Samples.env0 true false) Samples.hook1
                       (mkCC ["node-r"%string] [Some Samples.net24; Some Samples.pod24] true)
                       (Samples.world0
                          (Samples.table []
                             (fun r => match Dst r with
                                       | Some d => IP_Equal (IPNet_IP d) (IPNet_IP Samples.net24)
                                       | None => false
                                       end)))
    = Ret None w' /\
    present (mkRoute 7 SCOPE_UNIVERSE (Some Samples.pod24) Samples.router4 Samples.router4)
            (tb_routes (kernel w')) = true.
Proof.
  eexists. split; [vm_compute; reflexivity|].
  eapply (auxiliary_prefix_installed string (Samples.env0 true false)
            Samples.hook1 Samples.hookRoutes1 hook1_writes
            (mkCC ["node-r"%string] [Some Samples.net24; Some Samples.pod24] true)
            (Samples.world0
               (Samples.table []
                  (fun r => match Dst r with
                            | Some d => IP_Equal (IPNet_IP d) (IPNet_IP Samples.net24)
                            | None => false
                            end)))
            _ Samples.host Samples.pod24 Samples.routerNet4).
  - vm_compute. reflexivity.
  - reflexivity.
  - right. now left.
  - reflexivity.
  - reflexivity.
Defined.

Lemma route_add_delete_device_failure_witness :
  route_add (Samples.env0 true false) hostRoute
            (Samples.world0 (mkTable [] [] Samples.accept_all false))
  = Ret (Some "Link not found"%string)
        (mkWorld (mkTable [] [] Samples.accept_all false)
                 ([] ++ [EvLinkByName string "cilium_host"]) []) /\
  route_delete (Samples.env0 true false) hostRoute
               (Samples.world0 (mkTable [] [] Samples.accept_all false))
  = Ret (Some "Link not found"%string)
        (mkWorld (mkTable [] [] Samples.accept_all false)
                 ([] ++ [EvLinkByName string "cilium_host"]) []).
Proof.
  apply (route_add_delete_device_failure string (Samples.env0 true false) hostRoute
           (Samples.world0 (mkTable [] [] Samples.accept_all false))).
  - discriminate.
  - reflexivity.
Defined.

(** The nexthop route is refused, and the route to the prefix is sent all
    the same. *)
Lemma replaceNodeRoute_best_effort_witness :
  exists w' mid,
    replaceNodeRoute (Samples.env0 true false) (Some Samples.pod24)
                     (Samples.world0 (Samples.table [] Samples.refuse_link4)) = Ret tt w' /\
    trace w' = [] ++ [EvLinkByName string "cilium_host";
                      EvRouteList string 7 (ipFamily (IPNet_IP Samples.routerNet4))]
                  ++ mid
                  ++ [EvRouteReplace string
                        (mkRoute 7 SCOPE_UNIVERSE (Some Samples.pod24)
                                 Samples.router4 Samples.router4)] /\
    (mid = [] \/ mid = [EvRouteReplace string (nexthopFilter Samples.host Samples.routerNet4)]).
Proof.
  apply (replaceNodeRoute_best_effort string (Samples.env0 true false) Samples.pod24
           Samples.host Samples.routerNet4 _
           (Samples.world0 (Samples.table [] Samples.refuse_link4))); reflexivity.
Defined.

Lemma syncClusterRouting_device_failure_witness :
  syncClusterRouting (Samples.env0 true false) Samples.hook0 Samples.cc0
                     (Samples.world0 (mkTable [] [] Samples.accept_all false))
  = Ret (Some "Link not found"%string)
        (mkWorld (mkTable [] [] Samples.accept_all false)
                 ([] ++ [EvLinkByName string "cilium_host"]) []).
Proof.
  apply (syncClusterRouting_device_failure string (Samples.env0 true false) Samples.hook0
           Samples.cc0 (Samples.world0 (mkTable [] [] Samples.accept_all false))).
  reflexivity.
Defined.

(** Every route but the two nexthop routes is refused: the pass returns nil. *)
Lemma syncClusterRouting_result_witness :
  exists res w',
    syncClusterRouting (Samples.env0 true false) Samples.hook0 Samples.cc0
                       (Samples.world0
                          (Samples.table [] (fun r => negb (Scope r =? SCOPE_LINK)%Z)))
    = Ret res w' /\
    (res = None <->
     exists l w1 w2,
       LinkByName "cilium_host"
                  (Samples.table [] (fun r => negb (Scope r =? SCOPE_LINK)%Z)) = inl l /\
       replaceNexthopRoute l (Some Samples.routerNet4)
         (mkWorld (Samples.table [] (fun r => negb (Scope r =? SCOPE_LINK)%Z))
                  ([] ++ [EvLinkByName string "cilium_host"]) []) = Ret None w1 /\
       replaceNexthopRoute l (Some Samples.routerNet6) w1 = Ret None w2).
Proof.
  apply (syncClusterRouting_result string (Samples.env0 true false) Samples.hook0
           Samples.cc0
           (Samples.world0 (Samples.table [] (fun r => negb (Scope r =? SCOPE_LINK)%Z)))).
  intros ns u. eexists. reflexivity.
Defined.

End TableFacts.
